(** * simple_chatbot: the Socket.IO gateway and the message input form

    A shallow embedding of
    - [backend/app/api/endpoints.py] (the handlers [connect], [disconnect],
      [chat_message], [any_event] and [error] registered on the Socket.IO
      server [sio]), and
    - [frontend/chat-app-frontend/src/components/MessageInput.tsx]
      ([handleSubmit]),
    together with the properties the specification states about them. *)

From Stdlib Require Import ZArith NArith DecimalString.
From stdpp Require Import base option list strings gmap sets.

Set Warnings "-clear-no-such-hyp".

(** ** Python values

    Payloads travel as decoded JSON: the handlers receive and emit Python
    objects.  A [dict] is a finite map keyed by strings. *)

#[warnings="-register-all"]
Inductive value : Type :=
| VNone
| VBool (b : bool)
| VInt (z : Z)
| VFloat (bits : N)
| VStr (s : string)
| VBytes (b : list N)
| VList (l : list value)
| VDict (d : gmap string value).

(** [isinstance(v, dict)] *)
Definition isinstance_dict (v : value) : bool :=
  match v with VDict _ => true | _ => false end.

(** [key in v], for a [v] that is a dict *)
Definition dict_contains (key : string) (v : value) : bool :=
  match v with
  | VDict d => bool_decide (is_Some (d !! key))
  | _ => false
  end.

(** [v.get(key)]: the value under [key], [None] when the key is absent *)
Definition dict_get (key : string) (v : value) : value :=
  match v with
  | VDict d => default VNone (d !! key)
  | _ => VNone
  end.

(** A dict display [{k1: v1, ..., kn: vn}]: the items are stored from left
    to right, so a later key overrides an earlier equal one. *)
Definition dict_of (items : list (string * value)) : value :=
  VDict (foldl (λ d kv, <[kv.1 := kv.2]> d) ∅ items).

(** Field access used to state properties: [None] when [v] is not a dict or
    has no such key. *)
Definition field (key : string) (v : value) : option value :=
  match v with
  | VDict d => d !! key
  | _ => None
  end.

(** ** The world the handlers act on *)

(** A connection identifier, the [sid] python-socketio assigns. *)
Abbreviation sid := string (only parsing).

(** [datetime] instants, as microseconds since the epoch. *)
Abbreviation time := N (only parsing).

(** Exceptions deriving from [Exception], split the way the [except] clauses
    of [chat_message] split them: [socketio.exceptions.SocketIOError] (and
    its subclasses) against every other class. *)
Inductive exn : Type :=
| SocketIOError (msg : string)
| OtherException (msg : string).

(** The addressing of one [sio.emit] call: the keyword arguments [room] and
    [skip_sid], each [None] when not given. *)
Record target : Type := Target { room : option sid; skip_sid : option sid }.

Definition to_room (s : sid) : target := Target (Some s) None.
Definition to_all : target := Target None None.
Definition to_all_but (s : sid) : target := Target None (Some s).

(** Every client sits in the room named after its own [sid] and the handlers
    enter no other room, so an emit reaches the open connections that match
    [room] (all of them without [room]) and differ from [skip_sid]. *)
Definition reaches (t : target) (c : sid) : Prop :=
  (from_option (λ r, r = c) True (room t)) ∧
  (from_option (λ k, k ≠ c) True (skip_sid t)).

#[global] Instance reaches_dec t c : Decision (reaches t c).
Proof. unfold reaches; destruct (room t), (skip_sid t); simpl; apply _. Defined.

Definition recipients (conns : gset sid) (t : target) : gset sid :=
  filter (reaches t) conns.

(** Logging levels of the [logging] module. *)
Inductive level : Type := DEBUG | INFO | WARNING | ERROR.

(** The numeric value of a level. *)
Definition level_no (l : level) : nat :=
  match l with DEBUG => 10 | INFO => 20 | WARNING => 30 | ERROR => 40 end.

(** [logging.basicConfig(level=logging.INFO)]: the threshold of the root
    logger, which [logger] inherits. *)
Definition root_level : level := INFO.

(** [logger.isEnabledFor(l)] *)
Definition is_enabled_for (l : level) : bool :=
  level_no root_level <=? level_no l.

(** The pieces of an f-string: literal text and interpolated objects. *)
Inductive frag : Type :=
| Lit (s : string)
| FStr (s : string)
| FVal (v : value)
| FExn (e : exn).

(** What a handler does to the outside, in the order it does it. *)
Inductive effect : Type :=
| Log (lvl : level) (msg : list frag) (exc_info : bool)
| Emit (event : string) (payload : value) (tgt : target)
| EmitRaised (event : string) (payload : value) (tgt : target) (e : exn)
| Generated (text : value) (s : sid) (r : exn + value).

(** The connection manager's table, in insertion order: one
    [(sid, connect time)] pair per registered connection. *)
Abbreviation registry := (list (sid * time)) (only parsing).

Record world : Type := World {
  connections : registry;
  trace : list effect
}.

Definition record (e : effect) (w : world) : world :=
  World (connections w) (trace w ++ [e]).

(** The collaborators the handlers call.  What a call answers may depend on
    everything that happened before it, hence on the trace. *)
Record Env : Type := {
  (** [ai_assistant_service.ai_sid] *)
  ai_sid : string;
  (** [datetime.datetime.utcnow()] *)
  utcnow : list effect → time;
  (** [datetime.isoformat()] *)
  isoformat : time → string;
  (** whether this [sio.emit(event, payload, ...)] raises, and what *)
  emit_fault : list effect → string → value → target → option exn;
  (** [ai_assistant_service.generate_dummy_response(text, sid)]: the object
      it returns, or the exception it raises *)
  generate_dummy_response : list effect → value → sid → exn + value
}.

(** ** A state and exception monad for the coroutines *)

Inductive outcome (A : Type) : Type :=
| Ret (a : A)
| Raise (e : exn).
Arguments Ret {A} a.
Arguments Raise {A} e.

Definition M (A : Type) : Type := world → outcome A * world.

Definition ret {A} (a : A) : M A := λ w, (Ret a, w).

Definition bind {A B} (m : M A) (k : A → M B) : M B :=
  λ w, match m w with
       | (Ret a, w') => k a w'
       | (Raise e, w') => (Raise e, w')
       end.

(** [try: body  except Exception as e: handler e] *)
Definition try_except {A} (body : M A) (handler : exn → M A) : M A :=
  λ w, match body w with
       | (Ret a, w') => (Ret a, w')
       | (Raise e, w') => handler e w'
       end.

#[global] Instance M_ret : MRet M := @ret.
#[global] Instance M_bind : MBind M := λ A B k m, bind m k.

Definition run {A} (m : M A) (w : world) : outcome A * world := m w.

(** ** The connection manager *)

Module Registry.

(** Modelled from the spec: [app/services/connection_manager.py] is not
    among the sources.  [register(connectionId)] inserts a new entry with
    the current time and, called again for the same id, overwrites the
    timestamp; this is the assignment [table[connectionId] = now] on a
    table kept in insertion order. *)
Fixpoint register (now : time) (s : sid) (r : registry) : registry :=
  match r with
  | [] => [(s, now)]
  | (k, t) :: r' =>
      if String.eqb k s then (k, now) :: r' else (k, t) :: register now s r'
  end.

(** Modelled from the spec: [deregister(connectionId)] removes the entry
    and is a no-op, not an error, if the id is absent. *)
Definition deregister (s : sid) (r : registry) : registry :=
  filter (λ kv, kv.1 ≠ s) r.

(** The connect time on record for [s], if any. *)
Fixpoint lookup (s : sid) (r : registry) : option time :=
  match r with
  | [] => None
  | (k, t) :: r' => if String.eqb k s then Some t else lookup s r'
  end.

(** The registered ids, in table order. *)
Definition ids (r : registry) : list sid := map fst r.

(** How many entries the table holds for [s]. *)
Definition entries (s : sid) (r : registry) : nat :=
  length (filter (λ kv, kv.1 = s) r).

End Registry.

(** ** The gateway: [backend/app/api/endpoints.py] *)

Section Gateway.

Variable env : Env.

(** *** The calls the handlers make *)

Definition logger_debug (msg : list frag) : M unit :=
  λ w, (Ret (), record (Log DEBUG msg false) w).
Definition logger_info (msg : list frag) : M unit :=
  λ w, (Ret (), record (Log INFO msg false) w).
Definition logger_warning (msg : list frag) : M unit :=
  λ w, (Ret (), record (Log WARNING msg false) w).
Definition logger_error (msg : list frag) (exc_info : bool) : M unit :=
  λ w, (Ret (), record (Log ERROR msg exc_info) w).

(** [await sio.emit(event, payload, room=..., skip_sid=...)] *)
Definition sio_emit (event : string) (payload : value) (tgt : target) : M unit :=
  λ w, match emit_fault env (trace w) event payload tgt with
       | None => (Ret (), record (Emit event payload tgt) w)
       | Some e => (Raise e, record (EmitRaised event payload tgt e) w)
       end.

(** [datetime.datetime.utcnow().isoformat() + 'Z'] *)
Definition timestamp_now : M value :=
  λ w, (Ret (VStr (isoformat env (utcnow env (trace w)) +:+ "Z")), w).

(** [await ai_assistant_service.generate_dummy_response(text, sid)] *)
Definition ai_generate (text : value) (s : sid) : M value :=
  λ w, let r := generate_dummy_response env (trace w) text s in
       (match r with inl e => Raise e | inr v => Ret v end,
        record (Generated text s r) w).

(** [await manager.connect(sid)] *)
Definition manager_connect (s : sid) : M unit :=
  λ w, (Ret (),
        World (Registry.register (utcnow env (trace w)) s (connections w))
              (trace w)).

(** [await manager.disconnect(sid)] *)
Definition manager_disconnect (s : sid) : M unit :=
  λ w, (Ret (), World (Registry.deregister s (connections w)) (trace w)).

(** *** Payloads *)

Definition status_message (text : string) : value :=
  dict_of [("type", VStr "status"); ("data", VStr text)].

Definition error_message (kind text : string) : value :=
  dict_of [("type", VStr kind); ("message", VStr text)].

Definition chat_payload (sender : string) (text : value) (ts : value)
    (is_ai : bool) : value :=
  dict_of [("sender_sid", VStr sender); ("text", text);
           ("timestamp", ts); ("is_ai", VBool is_ai)].

(** *** [connect(sid, environ)] *)

Definition connect_body (s : sid) (environ : value) : M unit :=
  manager_connect s;;
  logger_info [Lit "Client connected: "; FStr s;
               Lit ", Environment: "; FVal environ];;
  sio_emit "server_registered_sid" (dict_of [("sid", VStr s)]) (to_room s);;
  logger_info [Lit "Emitted 'server_registered_sid' with SID "; FStr s;
               Lit " to client "; FStr s];;
  sio_emit "message" (status_message ("Welcome " +:+ s +:+ "!")) (to_room s);;
  ts ← timestamp_now;
  let ai_welcome :=
    chat_payload (ai_sid env)
      (VStr "Hello! I am your friendly AI assistant. Ask me anything!")
      ts true in
  sio_emit "new_message" ai_welcome (to_room s).

Definition connect_handler (s : sid) (e : exn) : M unit :=
  logger_error [Lit "Error during connect for SID "; FStr s;
                Lit ": "; FExn e] true;;
  try_except
    (sio_emit "error"
       (dict_of [("message", VStr "Connection error occurred.")]) (to_room s))
    (λ emit_exception,
       logger_error [Lit "Failed to emit connection error to SID "; FStr s;
                     Lit ": "; FExn emit_exception] true).

Definition connect (s : sid) (environ : value) : M unit :=
  try_except (connect_body s environ) (connect_handler s).

(** *** [disconnect(sid)] *)

Definition disconnect_body (s : sid) : M unit :=
  manager_disconnect s;;
  logger_info [Lit "Client disconnected: "; FStr s];;
  sio_emit "message" (status_message ("User " +:+ s +:+ " has left."))
    (to_all_but s).

Definition disconnect_handler (s : sid) (e : exn) : M unit :=
  logger_error [Lit "Error during disconnect for SID "; FStr s;
                Lit ": "; FExn e] true.

Definition disconnect (s : sid) : M unit :=
  try_except (disconnect_body s) (disconnect_handler s).

(** *** [chat_message(sid, data)] *)

(** [not isinstance(data, dict) or 'text' not in data] *)
Definition invalid_format (data : value) : bool :=
  negb (isinstance_dict data) || negb (dict_contains "text" data).

Definition chat_message_body (s : sid) (data : value) : M unit :=
  logger_info [Lit "Message from "; FStr s; Lit ": "; FVal data];;
  if invalid_format data then
    logger_warning [Lit "Invalid message format from "; FStr s;
                    Lit ". Data: "; FVal data];;
    sio_emit "error"
      (error_message "validation_error"
         "Invalid message format. Expected {'text': 'your message'}")
      (to_room s)
  else
    let user_message_text := dict_get "text" data in
    ts ← timestamp_now;
    let user_message_payload := chat_payload s user_message_text ts false in
    logger_info [Lit "Broadcasting user message from "; FStr s;
                 Lit ": "; FVal user_message_payload];;
    sio_emit "new_message" user_message_payload to_all;;
    logger_info [Lit "Generating AI response for "; FStr s;
                 Lit " based on: "; FVal user_message_text];;
    ai_response ← ai_generate user_message_text s;
    logger_info [Lit "Sending AI response to all clients: ";
                 FVal ai_response];;
    sio_emit "new_message" ai_response to_all.

(** The two [except] clauses: [socketio.exceptions.SocketIOError] first,
    then [Exception]. *)
Definition chat_message_handler (s : sid) (e : exn) : M unit :=
  match e with
  | SocketIOError _ =>
      logger_error [Lit "Socket.IO error processing chat_message for SID ";
                    FStr s; Lit ": "; FExn e] true;;
      try_except
        (sio_emit "error"
           (error_message "server_error"
              "A server error occurred while processing your message.")
           (to_room s))
        (λ emit_exception,
           logger_error [Lit "Failed to emit server_error to SID "; FStr s;
                         Lit ": "; FExn emit_exception] true)
  | OtherException _ =>
      logger_error [Lit "Unexpected error processing chat_message for SID ";
                    FStr s; Lit ": "; FExn e] true;;
      try_except
        (sio_emit "error"
           (error_message "unexpected_error"
              "An unexpected server error occurred.")
           (to_room s))
        (λ emit_exception,
           logger_error [Lit "Failed to emit unexpected_error to SID ";
                         FStr s; Lit ": "; FExn emit_exception] true)
  end.

Definition chat_message (s : sid) (data : value) : M unit :=
  try_except (chat_message_body s data) (chat_message_handler s).

(** *** The catch-all [any_event(event, sid, data)] and [error(sid, data)] *)

Definition any_event (event : string) (s : sid) (data : value) : M unit :=
  logger_debug [Lit "Unhandled event '"; FStr event; Lit "' from SID ";
                FStr s; Lit "' with data: "; FVal data].

Definition error (s : sid) (data : value) : M unit :=
  logger_error [Lit "Server-side error event triggered for SID "; FStr s;
                Lit ": "; FVal data] false.

(** *** Dispatch

    [@sio.event] registers a coroutine under its own name and
    [@sio.on('*')] registers the catch-all, which the server calls for an
    event name that has no handler of its own. *)
Definition recognized : list string :=
  ["connect"; "disconnect"; "chat_message"; "error"].

Definition dispatch (event : string) (s : sid) (data : value) : M unit :=
  if String.eqb event "connect" then connect s data
  else if String.eqb event "disconnect" then disconnect s
  else if String.eqb event "chat_message" then chat_message s data
  else if String.eqb event "error" then error s data
  else any_event event s data.

End Gateway.

(** ** Observing a run *)

(** The effects a computation adds to the trace when started in [w]. *)
Definition effects_of {A} (m : M A) (w : world) : list effect :=
  drop (length (trace w)) (trace (run m w).2).

(** The completed [sio.emit] calls among some effects, in order. *)
Definition emitted (l : list effect) : list (string * value * target) :=
  omap (λ e, match e with Emit ev p t => Some (ev, p, t) | _ => None end) l.

(** The exceptions the collaborators raised among some effects, in order. *)
Definition raised (l : list effect) : list exn :=
  omap (λ e, match e with
             | EmitRaised _ _ _ x => Some x
             | Generated _ _ (inl x) => Some x
             | _ => None
             end) l.

(** The log records among some effects, in order. *)
Definition logged (l : list effect) : list (level * list frag * bool) :=
  omap (λ e, match e with Log lv m x => Some (lv, m, x) | _ => None end) l.

(** The emits of [l] that reach connection [c] when [conns] are open. *)
Definition received (conns : gset sid) (c : sid) (l : list effect)
    : list (string * value * target) :=
  filter (λ m, c ∈ recipients conns m.2) (emitted l).

(** The emits of [l] named [event]. *)
Definition named (event : string) (l : list (string * value * target))
    : list (string * value * target) :=
  filter (λ m, m.1.1 = event) l.

(** The emits addressed to every open connection: no [room] given. *)
Definition broadcasts (l : list effect) : list (string * value * target) :=
  filter (λ m, room m.2 = None) (emitted l).

(** ** A reference environment: nothing fails, the clock stands still *)

(** Modelled from the spec: [app/services/ai_assistant.py] is not among the
    sources.  The fixed list of template replies the generator picks from;
    the spec does not give the templates, these stand for them. *)
Definition template_replies : list string :=
  ["That's an interesting point!"; "Tell me more."; "I see."].

(** Modelled from the spec: the fixed default string the generator falls
    back to. *)
Definition default_reply : string := "I'm not sure what to say.".

(** Modelled from the spec: [generate(inputText) -> replyText] of
    [app/services/ai_assistant.py], which is not among the sources.  The
    reply is one of the templates, chosen at random (by the number [pick]
    drawn for the call), or the default string; the function never fails,
    and what it returns is a text, not a ChatMessage. *)
Definition generate (pick : nat) (inputText : value) : string :=
  default default_reply
    (template_replies !! (pick `mod` length template_replies)).

(** A generator of another shape, for the concrete runs: the reply wrapped
    in the ChatMessage that a caller emitting it as [new_message] expects
    (the marker as sender, [is_ai] set).  The sources do not show which
    shape the generator of the repository returns. *)
Definition wrapped_reply (marker : string) (ts : string) (text : value)
    : value :=
  let n := match text with VStr t => String.length t | _ => 0 end in
  dict_of [("sender_sid", VStr marker); ("text", VStr (generate n text));
           ("timestamp", VStr ts); ("is_ai", VBool true)].

Definition env0 : Env := {|
  ai_sid := "ai_assistant";
  utcnow := λ _, 0%N;
  isoformat := λ _, "1970-01-01T00:00:00";
  emit_fault := λ _ _ _ _, None;
  generate_dummy_response :=
    λ _ text _, inr (wrapped_reply "ai_assistant" "1970-01-01T00:00:00Z" text)
|}.

Definition w0 : world := World [] [].

(** A second environment: the response generator raises an exception that
    is not a [SocketIOError]; the transport works. *)
Definition env_generator_fails : Env := {|
  ai_sid := "ai_assistant";
  utcnow := λ _, 0%N;
  isoformat := λ _, "1970-01-01T00:00:00";
  emit_fault := λ _ _ _ _, None;
  generate_dummy_response := λ _ _ _, inl (OtherException "boom")
|}.

(** A third environment: every emit of a [new_message] raises a
    [SocketIOError]; the other emits and the generator work. *)
Definition env_new_message_fails : Env := {|
  ai_sid := "ai_assistant";
  utcnow := λ _, 0%N;
  isoformat := λ _, "1970-01-01T00:00:00";
  emit_fault := λ _ event _ _,
    if String.eqb event "new_message" then Some (SocketIOError "closed")
    else None;
  generate_dummy_response :=
    λ _ text _, inr (wrapped_reply "ai_assistant" "1970-01-01T00:00:00Z" text)
|}.


(** ** The fields of a ChatMessage *)

Definition msg_sender_sid (m : value) : option string :=
  match field "sender_sid" m with Some (VStr s) => Some s | _ => None end.

Definition msg_text (m : value) : option value := field "text" m.


Definition msg_is_ai (m : value) : option bool :=
  match field "is_ai" m with Some (VBool b) => Some b | _ => None end.

(** ** The specification's reading of the protocol *)

(** The event names of the specification's external-interface table. *)
Definition interface_events : list string :=
  ["server_registered_sid"; "new_message"; "chat_message"; "error"].

(** The specification's notion of an invalid [chat_message] payload: not a
    structured value, or [text] missing, or [text] empty. *)
Definition spec_invalid (data : value) : bool :=
  negb (isinstance_dict data)
  || negb (dict_contains "text" data)
  || match dict_get "text" data with VStr "" => true | _ => false end.

(** A run rejects the payload: nothing is broadcast, and the only emit is one
    [validation_error] to the sender. *)
Definition rejects (env : Env) (s : sid) (data : value) (w : world) : Prop :=
  let out := effects_of (chat_message env s data) w in
  broadcasts out = [] ∧
  ∃ p, emitted out = [("error", p, to_room s)]
       ∧ field "type" p = Some (VStr "validation_error").

(** A run announces a departure with an AI-flagged ChatMessage. *)
Definition announces_with_chat_message (env : Env) (s : sid) (w : world)
    : Prop :=
  let out := effects_of (disconnect env s) w in
  ∃ m, m ∈ emitted out ∧ msg_is_ai m.1.2 = Some true.



(** A run tells the sender about a [server_error]. *)
Definition reports_server_error (env : Env) (s : sid) (data : value)
    (w : world) : Prop :=
  let out := effects_of (chat_message env s data) w in
  ∃ p, ("error", p, to_room s) ∈ emitted out
       ∧ field "type" p = Some (VStr "server_error").

(** ** The message form: [MessageInput.tsx] and its caller [page.tsx] *)

Module MessageInput.

(** A JavaScript string: a sequence of UTF-16 code units. *)
Abbreviation jsstring := (list N) (only parsing).

(** The code units [String.prototype.trim] strips: ECMAScript WhiteSpace
    (TAB, VT, FF, ZWNBSP and the space separators) and LineTerminator
    (LF, CR, LS, PS). *)
Definition is_white_space (c : N) : bool :=
  ((c =? 0x9) || (c =? 0xB) || (c =? 0xC) || (c =? 0xFEFF)
   || (c =? 0x20) || (c =? 0xA0) || (c =? 0x1680)
   || ((0x2000 <=? c) && (c <=? 0x200A))
   || (c =? 0x202F) || (c =? 0x205F) || (c =? 0x3000)
   || (c =? 0xA) || (c =? 0xD) || (c =? 0x2028) || (c =? 0x2029))%N.

Fixpoint trim_start (s : jsstring) : jsstring :=
  match s with
  | c :: s' => if is_white_space c then trim_start s' else s
  | [] => []
  end.

Definition trim_end (s : jsstring) : jsstring := rev (trim_start (rev s)).

(** [s.trim()] *)
Definition trim (s : jsstring) : jsstring := trim_end (trim_start s).

(** A string is truthy when it is not empty. *)
Definition truthy (s : jsstring) : bool :=
  match s with [] => false | _ => true end.

(** What one submission of the form does: whether the default action of
    the event was prevented, the arguments [onSendMessage] was called
    with, and the value of the [text] state afterwards. *)
Record submission : Type := Submission {
  default_prevented : bool;
  sent : list jsstring;
  text_after : jsstring
}.

(** [handleSubmit(e)], with [text] the current state of the input. *)
Definition handleSubmit (text : jsstring) : submission :=
  if truthy (trim text)
  then Submission true [trim text] []
  else Submission true [] text.

(** [sendMessage(event, message)] of [useWebSocket]: emits only on a
    connected socket. *)
Definition sendMessage {A} (connected : bool) (event : string) (message : A)
    : list (string * A) :=
  if connected then [(event, message)] else [].

(** [handleSendMessage(text)] of the page: the [text] of the object sent
    as [chat_message]. *)
Definition handleSendMessage (connected : bool) (text : jsstring)
    : list (string * jsstring) :=
  sendMessage connected "chat_message" text.

(** Everything the client emits on one submission of the form. *)
Definition submit_emits (connected : bool) (text : jsstring)
    : list (string * jsstring) :=
  concat (map (handleSendMessage connected) (sent (handleSubmit text))).

End MessageInput.

(** ** More observations of a run *)

(** The calls of the response generator among some effects: the text and
    the connection id it was given. *)
Definition generator_calls (l : list effect) : list (value * sid) :=
  omap (λ e, match e with Generated t s _ => Some (t, s) | _ => None end) l.

(** The event names the handlers emit. *)
Definition emitted_names : list string :=
  ["server_registered_sid"; "message"; "new_message"; "error"].

(** ** The page: [page.tsx], [useWebSocket.ts] and [ChatMessage.tsx] *)

Module Page.

(** A JavaScript value.  A number is the 64 bits of its IEEE-754 double. *)
#[warnings="-register-all"]
Inductive jsvalue : Type :=
| JUndefined
| JNull
| JBool (b : bool)
| JNumber (bits : N)
| JString (s : list N)
| JArray (l : list jsvalue)
| JObject (o : gmap string jsvalue).

(** The code units of an ASCII literal. *)
Definition js (s : string) : list N :=
  map (λ a, N.of_nat (Ascii.nat_of_ascii a)) (String.list_ascii_of_string s).

(** ToBoolean: [undefined], [null], [false], [+0], [-0], [NaN] and the empty
    string are falsy, everything else is truthy. *)
Definition truthy (v : jsvalue) : bool :=
  match v with
  | JUndefined | JNull => false
  | JBool b => b
  | JNumber bits =>
      let magnitude := N.land bits 0x7FFFFFFFFFFFFFFF in
      negb (magnitude =? 0)%N && (magnitude <=? 0x7FF0000000000000)%N
  | JString s => match s with [] => false | _ => true end
  | JArray _ | JObject _ => true
  end.

(** [v.key] for a [key] that no prototype defines, as [event], [data],
    [text] and [sender] are: the own property of an object, [undefined] on
    any other value, and a [TypeError] ([None]) on [undefined] and [null]. *)
Definition get_prop (key : string) (v : jsvalue) : option jsvalue :=
  match v with
  | JUndefined | JNull => None
  | JObject o => Some (default JUndefined (o !! key))
  | _ => Some JUndefined
  end.

(** [v === 'literal'] *)
Definition is_string (lit : string) (v : jsvalue) : bool :=
  match v with
  | JString s => bool_decide (s = js lit)
  | _ => false
  end.

(** [typeof v === 'string'] *)
Definition typeof_string (v : jsvalue) : bool :=
  match v with JString _ => true | _ => false end.

(** The callback [useWebSocket] hands to [socket.onAny]: what
    [onMessageReceived] is called with for [event] and its arguments, that
    is [{ event, data: args.length > 1 ? args : args[0] }]. *)
Definition onAny (event : list N) (args : list jsvalue) : jsvalue :=
  JObject (list_to_map
    [("event", JString event);
     ("data", if decide (1 < length args) then JArray args
              else default JUndefined (head args))]).

Inductive status : Type := sending | sent | failed.

(** The interface [Message]; at run time [text] and [sender] hold whatever
    the received object held. *)
Record message : Type := Message {
  id : list N;
  text : jsvalue;
  sender : jsvalue;
  msg_status : option status
}.

(** The state of [Home]. *)
Record page : Type := PageState {
  messages : list message;
  isAiResponding : bool;
  isAiTyping : bool
}.

(** [Date.now().toString()], for [now] milliseconds. *)
Definition now_string (now : N) : list N :=
  js (NilEmpty.string_of_uint (N.to_uint now)).

(** [m.status === 'sending' ? { ...m, status: 'sent' } : m] *)
Definition mark_sent (m : message) : message :=
  match msg_status m with
  | Some sending => Message (id m) (text m) (sender m) (Some sent)
  | _ => m
  end.

(** The AI message the first two branches build. *)
Definition ai_message (now : N) (t : jsvalue) (from : jsvalue) : message :=
  Message (now_string now ++ js "-ai") t from None.

(** [handleMessageReceived(msg)] at time [now]: the state it leaves, and
    whether it ran to its end ([false] when a property access threw). *)
Definition handleMessageReceived (now : N) (msg : jsvalue) (st : page)
    : bool * page :=
  let st1 := PageState (map mark_sent (messages st)) false false in
  let append m := PageState (messages st1 ++ [m]) false false in
  match get_prop "event" msg, get_prop "data" msg with
  | Some event, Some data =>
      if is_string "chat_message" event && truthy data
         && truthy (default JUndefined (get_prop "text" data))
      then (true,
            append (ai_message now (default JUndefined (get_prop "text" data))
                      (JString (js "ai"))))
      else if typeof_string msg
      then (true, append (ai_message now msg (JString (js "ai"))))
      else
        match get_prop "text" msg, get_prop "sender" msg with
        | Some t, Some from =>
            if truthy t && truthy from
            then (true, append (ai_message now t from))
            else (true, st1)
        | _, _ => (false, st1)
        end
  | _, _ => (false, st1)
  end.

(** [sendMessage(event, message)] of [useWebSocket], for a socket that is
    there: [socket.emit] on a connected socket, nothing otherwise. *)
Definition sendMessage (connected : bool) (event : string) (message : jsvalue)
    : list (string * jsvalue) :=
  if connected then [(event, message)] else [].

(** [handleSendMessage(text)] at time [now]: the state it leaves and what it
    emits. *)
Definition handleSendMessage (now : N) (connected : bool) (t : list N)
    (st : page) : page * list (string * jsvalue) :=
  let newMessage :=
    Message (now_string now) (JString t) (JString (js "user")) (Some sending) in
  (PageState (messages st ++ [newMessage]) true true,
   sendMessage connected "chat_message"
     (JObject (list_to_map [("text", JString t)]))).

(** The connection states of [useWebSocket]. *)
Inductive ws_status : Type := connecting | connected | disconnected | error.

#[global] Instance ws_status_eq_dec : EqDecision ws_status.
Proof. solve_decision. Defined.

(** The effect [useEffect(..., [status])] at a commit whose status is [s],
    [prev] being the status of the commit before ([None] on mount): its
    body runs only when the status differs from the previous one, and then
    a lost connection stops the waiting. *)
Definition statusEffect (prev : option ws_status) (s : ws_status) (st : page)
    : page :=
  if decide (prev = Some s) then st
  else match s with
       | disconnected | error => PageState (messages st) false false
       | _ => st
       end.

(** [ChatMessage]: whether the bubble shows the line ["Sending..."]. *)
Definition shows_sending (m : message) : bool :=
  is_string "user" (sender m)
  && match msg_status m with Some sending => true | _ => false end.

(** [MessageInput]'s [disabled={isAiResponding}]. *)
Definition input_disabled (st : page) : bool := isAiResponding st.

End Page.

(** Two open connections, for concrete runs. *)
Definition two_open : gset sid := {["A"; "B"]}.

(** ** Tactics for running the handlers *)

#[local] Arguments dict_of : simpl never.
#[local] Arguments status_message : simpl never.
#[local] Arguments error_message : simpl never.
#[local] Arguments chat_payload : simpl never.
#[local] Arguments String.append : simpl never.

Ltac unfold_run :=
  unfold effects_of, run, dispatch, connect, connect_body, connect_handler,
    disconnect, disconnect_body, disconnect_handler,
    chat_message, chat_message_body, chat_message_handler,
    any_event, error, try_except;
  unfold mbind, M_bind, bind, manager_connect, manager_disconnect,
    logger_debug, logger_info, logger_warning, logger_error,
    sio_emit, timestamp_now, ai_generate, record;
  cbn [trace connections fst snd].

(** Case analysis on the next answer of a collaborator. *)
Ltac oracle :=
  match goal with
  | |- context [emit_fault ?e ?t ?ev ?p ?tg] =>
      destruct (emit_fault e t ev p tg) eqn:?; cbn [trace connections fst snd]
  | |- context [generate_dummy_response ?e ?t ?x ?s] =>
      destruct (generate_dummy_response e t x s) eqn:?;
      cbn [trace connections fst snd]
  end.

(** Case analysis on every answer, and on the class of a raised exception. *)
Ltac handler_cases :=
  repeat (oracle;
          try match goal with
              | |- context [match ?e with SocketIOError _ => _ | _ => _ end] =>
                  destruct e
              end).

Ltac in_list :=
  repeat first [apply list_elem_of_here | apply list_elem_of_further].

(** Evaluates [named event l] on a list of emits with literal names. *)
Ltac named_simpl :=
  unfold named;
  repeat (rewrite filter_cons; simpl; case_decide; try done);
  rewrite ?filter_nil.

(** Membership in a literal list, trying every position. *)
Ltac in_list_bt :=
  (apply list_elem_of_here) + (apply list_elem_of_further; in_list_bt).

Ltac new_effects :=
  rewrite <- ?app_assoc; rewrite ?drop_app_length; simpl.

(** Case analysis on the handler [dispatch] picks and on every answer of a
    collaborator during its run. *)
Ltac dispatch_cases event data :=
  unfold effects_of, run, dispatch;
  repeat match goal with
         | |- context [String.eqb event ?n] =>
             let E := fresh "Hev" in destruct (String.eqb event n) eqn:E
         end;
  unfold_run; try destruct (invalid_format data) eqn:?;
  handler_cases; new_effects.

(** ** The registry *)

Module RegistryFacts.
Import Registry.

Lemma lookup_register now s r : lookup s (register now s r) = Some now.
Proof.
  induction r as [|[k t] r IH]; simpl.
  - by rewrite String.eqb_refl.
  - destruct (String.eqb k s) eqn:E; simpl; rewrite E; auto.
Qed.

Lemma lookup_register_ne now s c r :
  c ≠ s → lookup c (register now s r) = lookup c r.
Proof.
  intros Hne. induction r as [|[k t] r IH]; simpl.
  - destruct (String.eqb s c) eqn:E; [|done].
    apply String.eqb_eq in E. congruence.
  - destruct (String.eqb k s) eqn:E; simpl; [|by rewrite IH].
    apply String.eqb_eq in E. subst k.
    destruct (String.eqb s c) eqn:E'; [|done].
    apply String.eqb_eq in E'. congruence.
Qed.

Lemma ids_register_present now s r :
  s ∈ ids r → ids (register now s r) = ids r.
Proof.
  unfold ids. induction r as [|[k t] r IH]; simpl; intros Hin.
  - by apply elem_of_nil in Hin.
  - destruct (String.eqb k s) eqn:E; simpl; [done|].
    f_equal. apply IH. apply elem_of_cons in Hin as [->|]; [|done].
    by rewrite String.eqb_refl in E.
Qed.

Lemma ids_register_absent now s r :
  s ∉ ids r → ids (register now s r) = ids r ++ [s].
Proof.
  unfold ids. induction r as [|[k t] r IH]; simpl; intros Hin; [done|].
  destruct (String.eqb k s) eqn:E; simpl.
  - apply String.eqb_eq in E. subst. exfalso. apply Hin. by left.
  - f_equal. apply IH. intros ?. apply Hin. by right.
Qed.

Lemma elem_of_ids_register now s r : s ∈ ids (register now s r).
Proof.
  destruct (decide (s ∈ ids r)) as [Hin|Hin].
  - by rewrite ids_register_present.
  - rewrite ids_register_absent by done. apply elem_of_app. right. by left.
Qed.

Lemma entries_register now s c r :
  entries c (register now s r)
  = if decide (c = s) then Nat.max 1 (entries c r) else entries c r.
Proof.
  unfold entries. induction r as [|[k t] r IH]; simpl.
  - rewrite filter_cons. simpl. by repeat case_decide; subst.
  - destruct (String.eqb k s) eqn:E.
    + apply String.eqb_eq in E. subst k. rewrite !filter_cons. simpl.
      repeat case_decide; subst; simpl; try done; lia.
    + assert (k ≠ s) by (intros ->; by rewrite String.eqb_refl in E).
      rewrite !filter_cons. simpl.
      repeat case_decide; subst; simpl in *; try done; lia.
Qed.

Lemma lookup_deregister_ne s c r :
  c ≠ s → lookup c (deregister s r) = lookup c r.
Proof.
  intros Hne. unfold deregister.
  induction r as [|[k t] r IH]; [done|].
  rewrite filter_cons. simpl. case_decide as Hk; simpl.
  - by rewrite IH.
  - destruct (String.eqb k c) eqn:E; [|done].
    apply String.eqb_eq in E. simpl in Hk. congruence.
Qed.

Lemma lookup_deregister s r : lookup s (deregister s r) = None.
Proof.
  unfold deregister. induction r as [|[k t] r IH]; [done|].
  rewrite filter_cons. simpl. case_decide as Hk; simpl; [|done].
  destruct (String.eqb k s) eqn:E; [|done].
  apply String.eqb_eq in E. done.
Qed.

Lemma ids_deregister s r :
  ids (deregister s r) = filter (λ k, k ≠ s) (ids r).
Proof.
  unfold ids, deregister. induction r as [|[k t] r IH]; [done|].
  simpl. rewrite !filter_cons. simpl.
  case_decide; simpl; by rewrite IH.
Qed.

Lemma lookup_None_ids s r : lookup s r = None ↔ s ∉ ids r.
Proof.
  unfold ids. induction r as [|[k t] r IH]; simpl.
  - split; [|done]. intros _ H. by apply elem_of_nil in H.
  - destruct (String.eqb k s) eqn:E.
    + apply String.eqb_eq in E. subst. split; [done|].
      intros H. exfalso. apply H. by left.
    + assert (k ≠ s) by (intros ->; by rewrite String.eqb_refl in E).
      rewrite IH, not_elem_of_cons. intuition congruence.
Qed.

Lemma NoDup_deregister s r : NoDup (ids r) → NoDup (ids (deregister s r)).
Proof. rewrite ids_deregister. apply NoDup_filter. Qed.

Lemma NoDup_register now s r : NoDup (ids r) → NoDup (ids (register now s r)).
Proof.
  intros Hnd. destruct (decide (s ∈ ids r)) as [Hin|Hin].
  - by rewrite ids_register_present.
  - rewrite ids_register_absent by done.
    apply NoDup_app. split; [done|]. split; [|apply NoDup_singleton].
    intros x Hx Hx'. apply list_elem_of_singleton in Hx'. by subst.
Qed.

Lemma entries_absent s r : s ∉ ids r → entries s r = 0.
Proof.
  unfold entries, ids. induction r as [|[k t] r IH]; [done|].
  simpl. intros [Hne Hin]%not_elem_of_cons.
  rewrite filter_cons_False by (simpl; congruence). auto.
Qed.

Lemma entries_NoDup s r : NoDup (ids r) → entries s r ≤ 1.
Proof.
  unfold ids. induction r as [|[k t] r IH]; simpl; [unfold entries; simpl; lia|].
  intros [Hk Hnd]%NoDup_cons. unfold entries in *.
  rewrite filter_cons. simpl. case_decide; simpl; [|auto].
  subst k. apply entries_absent in Hk. unfold entries in Hk. lia.
Qed.

Lemma length_register_present now s r :
  s ∈ ids r → length (register now s r) = length r.
Proof.
  intros Hin. rewrite <- (length_map fst (register now s r)).
  fold (ids (register now s r)). rewrite ids_register_present by done.
  unfold ids. by rewrite length_map.
Qed.

End RegistryFacts.

(** C8. On a table whose ids are distinct, registering the same id twice
    leaves exactly one entry for it: the second call adds no entry and
    changes no id, it only replaces the recorded time, and every other
    connection's entry is untouched.  [register] is a total function, so no
    call fails. *)
Theorem register_twice_one_entry (t1 t2 : time) (s : sid) (r : registry) :
  NoDup (Registry.ids r) →
  let r1 := Registry.register t1 s r in
  let r2 := Registry.register t2 s r1 in
  Registry.entries s r2 = 1 ∧
  Registry.ids r2 = Registry.ids r1 ∧
  length r2 = length r1 ∧
  Registry.lookup s r2 = Some t2 ∧
  (∀ c, c ≠ s → Registry.lookup c r2 = Registry.lookup c r) ∧
  NoDup (Registry.ids r2).
Proof.
  intros Hnd r1 r2. subst r1 r2.
  pose proof (RegistryFacts.elem_of_ids_register t1 s r) as Hin.
  pose proof (RegistryFacts.NoDup_register t1 s r Hnd) as Hnd1.
  split.
  { rewrite RegistryFacts.entries_register. case_decide; [|done].
    pose proof (RegistryFacts.entries_NoDup s _ Hnd1). lia. }
  split; [by apply RegistryFacts.ids_register_present|].
  split; [by apply RegistryFacts.length_register_present|].
  split; [apply RegistryFacts.lookup_register|].
  split; [|by apply RegistryFacts.NoDup_register].
  intros c Hne. by rewrite !RegistryFacts.lookup_register_ne.
Qed.

Lemma register_twice_one_entry_witness :
  NoDup (Registry.ids [("B", 5%N)]) ∧
  Registry.register 9%N "A" (Registry.register 7%N "A" [("B", 5%N)])
    = [("B", 5%N); ("A", 9%N)] ∧
  Registry.entries "A"
    (Registry.register 9%N "A" (Registry.register 7%N "A" [("B", 5%N)])) = 1.
Proof.
  assert (NoDup (Registry.ids [("B", 5%N)])) as Hnd
    by (apply NoDup_singleton).
  split; [exact Hnd|]. split; [reflexivity|].
  exact (proj1 (register_twice_one_entry 7%N 9%N "A" [("B", 5%N)] Hnd)).
Defined.

(** ** The gateway *)

Example dict_get_present :
  dict_get "text" (dict_of [("text", VStr "hi"); ("n", VInt 1)]) = VStr "hi".
Proof. reflexivity. Qed.

Example dict_of_repeated_key :
  dict_get "k" (dict_of [("k", VInt 1); ("k", VInt 2)]) = VInt 2.
Proof. reflexivity. Qed.

Example dict_get_absent : dict_get "text" (dict_of [("n", VInt 1)]) = VNone.
Proof. reflexivity. Qed.

Example invalid_format_list : invalid_format (VList [VStr "text"]) = true.
Proof. reflexivity. Qed.

Example invalid_format_null_text :
  invalid_format (dict_of [("text", VNone)]) = false.
Proof. reflexivity. Qed.

(** A record issued with [logger.debug] is below the configured threshold. *)
Example debug_below_threshold : is_enabled_for DEBUG = false.
Proof. reflexivity. Qed.

Example connect_env0 :
  emitted (effects_of (connect env0 "A" VNone) w0) =
    [("server_registered_sid", dict_of [("sid", VStr "A")], to_room "A");
     ("message", status_message "Welcome A!", to_room "A");
     ("new_message",
      chat_payload "ai_assistant"
        (VStr "Hello! I am your friendly AI assistant. Ask me anything!")
        (VStr "1970-01-01T00:00:00Z") true, to_room "A")].
Proof. reflexivity. Qed.

Example disconnect_env0 :
  run (disconnect env0 "A") (World [("A", 0%N); ("B", 3%N)] [])
  = (Ret (),
     World [("B", 3%N)]
       [Log INFO [Lit "Client disconnected: "; FStr "A"] false;
        Emit "message" (status_message "User A has left.") (to_all_but "A")]).
Proof. reflexivity. Qed.

Example chat_message_env0 :
  map (λ m, (m.1.1, msg_sender_sid m.1.2, msg_text m.1.2, msg_is_ai m.1.2))
    (emitted (effects_of
       (chat_message env0 "A" (dict_of [("text", VStr "hi")])) w0))
  = [("new_message", Some "A", Some (VStr "hi"), Some false);
     ("new_message", Some "ai_assistant", Some (VStr "I see."), Some true)].
Proof. reflexivity. Qed.

Section GatewayFacts.

Variable env : Env.

Lemma elem_of_recipients conns t c :
  c ∈ recipients conns t ↔ reaches t c ∧ c ∈ conns.
Proof. unfold recipients. apply elem_of_filter. Qed.

Lemma recipients_to_room conns s c :
  c ∈ recipients conns (to_room s) ↔ c = s ∧ s ∈ conns.
Proof.
  rewrite elem_of_recipients. unfold reaches. simpl. naive_solver.
Qed.


Lemma recipients_to_all_but conns s :
  recipients conns (to_all_but s) = conns ∖ {[s]}.
Proof.
  apply set_eq. intros c. rewrite elem_of_recipients.
  unfold reaches. simpl. set_solver.
Qed.

Lemma connect_trace s environ w :
  let out := effects_of (connect env s environ) w in
  raised out = [] →
  ∃ ts,
    emitted out =
      [("server_registered_sid", dict_of [("sid", VStr s)], to_room s);
       ("message", status_message ("Welcome " +:+ s +:+ "!"), to_room s);
       ("new_message",
        chat_payload (ai_sid env)
          (VStr "Hello! I am your friendly AI assistant. Ask me anything!")
          (VStr (ts +:+ "Z")) true,
        to_room s)].
Proof.
  unfold_run. repeat oracle; new_effects; try discriminate.
  intros _. eauto.
Qed.

Lemma connect_targets s environ w m :
  m ∈ emitted (effects_of (connect env s environ) w) → m.2 = to_room s.
Proof.
  unfold_run. repeat oracle; new_effects;
    rewrite ?elem_of_cons, elem_of_nil; naive_solver.
Qed.

Lemma connect_returns s environ w :
  (run (connect env s environ) w).1 = Ret ().
Proof. unfold_run. by repeat oracle. Qed.

Lemma connect_registers s environ w :
  connections (run (connect env s environ) w).2
  = Registry.register (utcnow env (trace w)) s (connections w).
Proof. unfold_run. by repeat oracle. Qed.

Lemma received_other conns s c out :
  c ≠ s →
  (∀ m, m ∈ emitted out → m.2 = to_room s) →
  received conns c out = [].
Proof.
  intros Hne Hall. unfold received.
  induction (emitted out) as [|m l IH]; [done|].
  rewrite filter_cons_False.
  - apply IH. intros m' Hm'. apply Hall. by right.
  - rewrite (Hall m) by (by left). rewrite recipients_to_room. naive_solver.
Qed.

Lemma received_self conns s out :
  s ∈ conns →
  (∀ m, m ∈ emitted out → m.2 = to_room s) →
  received conns s out = emitted out.
Proof.
  intros Hin Hall. unfold received.
  induction (emitted out) as [|m l IH]; [done|].
  rewrite filter_cons_True.
  - f_equal. apply IH. intros m' Hm'. apply Hall. by right.
  - rewrite (Hall m) by (by left). by rewrite recipients_to_room.
Qed.

(** C3. A connect registers the new connection and never fails; nothing it
    emits reaches another connection; and when no emit raises, the new
    connection receives exactly one [server_registered_sid]
    acknowledgment carrying its own id and exactly one [new_message], the
    welcome ChatMessage, whose sender is the AI marker and whose [is_ai]
    flag is set. *)
Theorem connect_greets_new_connection_only
    (s : sid) (environ : value) (w : world) (conns : gset sid) :
  let out := effects_of (connect env s environ) w in
  let w' := (run (connect env s environ) w).2 in
  (run (connect env s environ) w).1 = Ret () ∧
  is_Some (Registry.lookup s (connections w')) ∧
  (∀ c, c ≠ s → received conns c out = []) ∧
  (s ∈ conns → raised out = [] →
     named "server_registered_sid" (received conns s out)
       = [("server_registered_sid", dict_of [("sid", VStr s)], to_room s)] ∧
     ∃ welcome,
       named "new_message" (received conns s out)
         = [("new_message", welcome, to_room s)] ∧
       msg_is_ai welcome = Some true ∧
       msg_sender_sid welcome = Some (ai_sid env) ∧
       msg_text welcome
         = Some (VStr "Hello! I am your friendly AI assistant. Ask me anything!")).
Proof.
  intros out w'. split; [apply connect_returns|].
  split.
  { subst w'. rewrite connect_registers.
    rewrite RegistryFacts.lookup_register. eauto. }
  split.
  { intros c Hne. apply (received_other conns s); [done|].
    apply connect_targets. }
  intros Hin Hok.
  unfold out.
  rewrite (received_self conns s _ Hin (connect_targets s environ w)).
  destruct (connect_trace s environ w Hok) as [ts Hem].
  rewrite Hem. split; [done|].
  eexists. split; [reflexivity|]. done.
Qed.

(** C9. On a connect where no emit raises, the new connection also
    receives, between the acknowledgment and the welcome ChatMessage, one
    event named [message] with payload
    [{type: "status", data: "Welcome <sid>!"}]; no other connection
    receives it, and [message] is not an event name of the
    specification's interface table. *)
Theorem connect_emits_status_message
    (s : sid) (environ : value) (w : world) (conns : gset sid) :
  let out := effects_of (connect env s environ) w in
  s ∈ conns → raised out = [] →
  named "message" (received conns s out)
    = [("message",
        dict_of [("type", VStr "status");
                 ("data", VStr ("Welcome " +:+ s +:+ "!"))],
        to_room s)] ∧
  map (λ m, m.1.1) (received conns s out)
    = ["server_registered_sid"; "message"; "new_message"] ∧
  (∀ c, c ≠ s → received conns c out = []) ∧
  "message" ∉ interface_events.
Proof.
  intros out Hin Hok.
  unfold out.
  rewrite (received_self conns s _ Hin (connect_targets s environ w)).
  destruct (connect_trace s environ w Hok) as [ts Hem].
  rewrite Hem. split; [done|]. split; [done|].
  split.
  - intros c Hne. apply (received_other conns s); [done|].
    apply connect_targets.
  - unfold interface_events. rewrite !not_elem_of_cons. set_solver.
Qed.

(** C6. An event whose name is none of [connect], [disconnect],
    [chat_message], [error] goes to the catch-all, which returns after one
    log record at debug level: the registry is unchanged and nothing is
    emitted. *)
Theorem unrecognized_event_is_only_logged
    (event : string) (s : sid) (data : value) (w : world) :
  event ∉ recognized →
  run (dispatch env event s data) w
    = (Ret (),
       World (connections w)
         (trace w ++
          [Log DEBUG [Lit "Unhandled event '"; FStr event;
                      Lit "' from SID "; FStr s;
                      Lit "' with data: "; FVal data] false])) ∧
  emitted (effects_of (dispatch env event s data) w) = [] ∧
  raised (effects_of (dispatch env event s data) w) = [].
Proof.
  intros Hnot. unfold recognized in Hnot.
  rewrite !not_elem_of_cons in Hnot.
  destruct Hnot as (H1 & H2 & H3 & H4 & _).
  unfold effects_of, run, dispatch.
  apply String.eqb_neq in H1, H2, H3, H4. rewrite H1, H2, H3, H4.
  unfold_run. by new_effects.
Qed.

Lemma disconnect_cases s w :
  let out := effects_of (disconnect env s) w in
  (raised out = [] ∧
   emitted out
     = [("message", status_message ("User " +:+ s +:+ " has left."),
         to_all_but s)]) ∨
  (∃ e, raised out = [e] ∧ emitted out = [] ∧
        (ERROR, [Lit "Error during disconnect for SID "; FStr s;
                 Lit ": "; FExn e], true) ∈ logged out).
Proof.
  unfold_run. oracle; new_effects.
  - right. eexists. repeat split. apply elem_of_cons. right. by left.
  - by left.
Qed.

(** C4 (amended). A disconnect removes the connection from the registry
    and returns normally whatever happens.  The departure notice is an
    event named [message] with payload
    [{type: "status", data: "User <sid> has left."}], not a ChatMessage,
    addressed to every open connection but the leaving one, which is
    nobody when no other connection is open.  If emitting it raises,
    nothing is emitted and the exception is logged at error level. *)
Theorem disconnect_deregisters_and_notifies
    (s : sid) (w : world) (conns : gset sid) :
  let out := effects_of (disconnect env s) w in
  let w' := (run (disconnect env s) w).2 in
  (run (disconnect env s) w).1 = Ret () ∧
  connections w' = Registry.deregister s (connections w) ∧
  Registry.lookup s (connections w') = None ∧
  recipients conns (to_all_but s) = conns ∖ {[s]} ∧
  recipients ∅ (to_all_but s) = ∅ ∧
  recipients {[s]} (to_all_but s) = ∅ ∧
  ((raised out = [] ∧
    emitted out
      = [("message",
          dict_of [("type", VStr "status");
                   ("data", VStr ("User " +:+ s +:+ " has left."))],
          to_all_but s)]) ∨
   (∃ e, raised out = [e] ∧ emitted out = [] ∧
         (ERROR, [Lit "Error during disconnect for SID "; FStr s;
                  Lit ": "; FExn e], true) ∈ logged out)).
Proof.
  intros out w'.
  assert (connections w' = Registry.deregister s (connections w)) as Hreg.
  { subst w'. unfold_run. by oracle. }
  split. { unfold_run. by oracle. }
  split; [done|].
  split. { rewrite Hreg. apply RegistryFacts.lookup_deregister. }
  rewrite !recipients_to_all_but.
  split; [done|]. split; [set_solver|]. split; [set_solver|].
  apply disconnect_cases.
Qed.

(** *** [chat_message] *)

Lemma chat_message_returns s data w :
  (run (chat_message env s data) w).1 = Ret ().
Proof.
  unfold_run. destruct (invalid_format data); handler_cases; done.
Qed.

Lemma chat_message_registry s data w :
  connections (run (chat_message env s data) w).2 = connections w.
Proof.
  unfold_run. destruct (invalid_format data); handler_cases; done.
Qed.


Lemma invalid_format_false data :
  invalid_format data = false →
  ∃ v, field "text" data = Some v ∧ dict_get "text" data = v.
Proof.
  unfold invalid_format. destruct data; try discriminate. simpl.
  intros H. apply negb_false_iff, bool_decide_eq_true in H as [v Hv].
  exists v. by rewrite Hv.
Qed.

Lemma chat_message_invalid_cases s data w :
  invalid_format data = true →
  let out := effects_of (chat_message env s data) w in
  (∀ m, m ∈ emitted out → m.2 = to_room s) ∧
  (raised out = [] →
   emitted out
     = [("error",
         error_message "validation_error"
           "Invalid message format. Expected {'text': 'your message'}",
         to_room s)]).
Proof.
  intros Hinv. unfold_run. rewrite Hinv.
  handler_cases; new_effects; (split; [|done]); intros m;
    rewrite ?elem_of_cons, elem_of_nil; naive_solver.
Qed.

Lemma broadcasts_nil out s :
  (∀ m, m ∈ emitted out → m.2 = to_room s) → broadcasts out = [].
Proof.
  intros Hall. unfold broadcasts.
  induction (emitted out) as [|m l IH]; [done|].
  rewrite filter_cons_False.
  - apply IH. intros m' Hm'. apply Hall. by right.
  - by rewrite (Hall m) by (by left).
Qed.

Lemma chat_message_first_broadcast s data w m :
  head (broadcasts (effects_of (chat_message env s data) w)) = Some m →
  ∃ ts, m = ("new_message",
             chat_payload s (dict_get "text" data) (VStr (ts +:+ "Z")) false,
             to_all).
Proof.
  unfold_run. destruct (invalid_format data) eqn:Hinv;
    handler_cases; new_effects; unfold broadcasts; simpl;
    rewrite ?filter_cons; simpl; try discriminate;
    intros [= <-]; eauto.
Qed.

(** C1 (amended). A [chat_message] whose payload is not a dict, or is a
    dict without the key [text], is never broadcast and nothing of the run
    reaches another connection; when no emit raises, the only emit is one
    [error] of kind [validation_error] to the sender.  The check is on the
    presence of the key alone: whatever is first broadcast is the user
    ChatMessage built from a payload that is a dict holding [text], and it
    carries that value unchanged, empty or not. *)
Theorem chat_message_rejects_malformed
    (s : sid) (data : value) (w : world) (conns : gset sid) :
  let out := effects_of (chat_message env s data) w in
  (invalid_format data = true →
     broadcasts out = [] ∧
     (∀ c, c ≠ s → received conns c out = []) ∧
     (raised out = [] →
      emitted out
        = [("error",
            dict_of [("type", VStr "validation_error");
                     ("message",
                      VStr "Invalid message format. Expected {'text': 'your message'}")],
            to_room s)])) ∧
  (∀ m, head (broadcasts out) = Some m →
     isinstance_dict data = true ∧ dict_contains "text" data = true ∧
     m.1.1 = "new_message" ∧
     msg_is_ai m.1.2 = Some false ∧
     msg_sender_sid m.1.2 = Some s ∧
     msg_text m.1.2 = Some (dict_get "text" data)).
Proof.
  intros out. split.
  - intros Hinv.
    destruct (chat_message_invalid_cases s data w Hinv) as [Hall Hok].
    split; [by apply (broadcasts_nil _ s)|].
    split; [|done].
    intros c Hne. by apply (received_other conns s).
  - intros m Hm.
    destruct (invalid_format data) eqn:Hinv.
    + destruct (chat_message_invalid_cases s data w Hinv) as [Hall _].
      unfold out in Hm. by rewrite (broadcasts_nil _ s Hall) in Hm.
    + apply chat_message_first_broadcast in Hm as [ts ->].
      unfold invalid_format in Hinv.
      apply orb_false_iff in Hinv as [H1 H2].
      apply negb_false_iff in H1, H2. done.
Qed.


(** C5 (amended). [chat_message] always returns normally.  When the
    response generator or an emit raises, the exception is logged at error
    level with its traceback and the sender, and nobody else, is sent one
    [error] event whose kind is [server_error] for a [SocketIOError] and
    [unexpected_error] for any other exception; if that emit raises too,
    no [error] event is emitted and the second exception is logged. *)
Theorem chat_message_failure_is_reported
    (s : sid) (data : value) (w : world) (e : exn) :
  let out := effects_of (chat_message env s data) w in
  let kind := match e with
              | SocketIOError _ => "server_error"
              | OtherException _ => "unexpected_error"
              end in
  let text := match e with
              | SocketIOError _ =>
                  "A server error occurred while processing your message."
              | OtherException _ => "An unexpected server error occurred."
              end in
  let what := match e with
              | SocketIOError _ =>
                  "Socket.IO error processing chat_message for SID "
              | OtherException _ =>
                  "Unexpected error processing chat_message for SID "
              end in
  head (raised out) = Some e →
  (run (chat_message env s data) w).1 = Ret () ∧
  (ERROR, [Lit what; FStr s; Lit ": "; FExn e], true) ∈ logged out ∧
  (∀ m, m ∈ named "error" (emitted out) → m.2 = to_room s) ∧
  ((raised out = [e] ∧
    named "error" (emitted out)
      = [("error",
          dict_of [("type", VStr kind); ("message", VStr text)],
          to_room s)]) ∨
   (∃ e', raised out = [e; e'] ∧
          named "error" (emitted out) = [] ∧
          (ERROR, [Lit ("Failed to emit " +:+ kind +:+ " to SID ");
                   FStr s; Lit ": "; FExn e'], true) ∈ logged out)).
Proof.
  intros out kind text what Hfirst.
  split; [apply chat_message_returns|].
  revert Hfirst. subst out kind text what.
  unfold_run. destruct (invalid_format data) eqn:Hinv;
    handler_cases; new_effects; try discriminate; intros [= <-].
  all: split; [in_list|].
  all: split;
    [ intros m [Hev Hin]%list_elem_of_filter; revert Hin Hev;
      rewrite ?elem_of_cons, ?elem_of_nil;
      intuition (subst; simpl in *; (done || discriminate)) | ].
  all: named_simpl.
  all: first [ by left
             | right; eexists; split; [reflexivity|]; split; [done|];
               in_list ].
Qed.

(** The ids of the manager's table stay distinct whatever event is handled,
    so the table the gateway builds from the empty one never holds two
    entries for a connection. *)
Lemma dispatch_preserves_distinct_ids event s data w :
  NoDup (Registry.ids (connections w)) →
  NoDup (Registry.ids (connections (run (dispatch env event s data) w).2)).
Proof.
  intros Hnd. unfold run, dispatch.
  repeat match goal with
         | |- context [String.eqb event ?n] => destruct (String.eqb event n)
         end.
  - fold (run (connect env s data) w). rewrite connect_registers.
    by apply RegistryFacts.NoDup_register.
  - unfold_run. oracle; by apply RegistryFacts.NoDup_deregister.
  - fold (run (chat_message env s data) w). by rewrite chat_message_registry.
  - done.
  - done.
Qed.


End GatewayFacts.

(** ** The message form *)

Module MessageInputFacts.
Import MessageInput.

Lemma trim_start_head s :
  trim_start s = [] ∨
  ∃ c s', trim_start s = c :: s' ∧ is_white_space c = false.
Proof.
  induction s as [|c s IH]; simpl; [by left|].
  destruct (is_white_space c) eqn:E; [done|]. right. eauto.
Qed.

Lemma trim_start_nil s :
  trim_start s = [] ↔ forallb is_white_space s = true.
Proof.
  induction s as [|c s IH]; simpl; [done|].
  destruct (is_white_space c); simpl; [done|]. split; discriminate.
Qed.

Lemma forallb_rev (f : N → bool) l : forallb f (rev l) = forallb f l.
Proof.
  induction l as [|c l IH]; simpl; [done|].
  rewrite forallb_app, IH. simpl. destruct (f c), (forallb f l); done.
Qed.

Lemma trim_nil s : trim s = [] ↔ forallb is_white_space s = true.
Proof.
  unfold trim, trim_end. split.
  - intros H. apply (f_equal (@rev N)) in H. rewrite rev_involutive in H.
    simpl in H. apply trim_start_nil in H. rewrite forallb_rev in H.
    destruct (trim_start_head s) as [E|(c & s' & E & Hc)].
    + by apply trim_start_nil.
    + rewrite E in H. simpl in H. by rewrite Hc in H.
  - intros H. apply trim_start_nil in H. by rewrite H.
Qed.

Lemma trim_not_blank s :
  trim s ≠ [] → forallb is_white_space (trim s) = false.
Proof.
  unfold trim, trim_end. intros Hne. rewrite forallb_rev.
  destruct (trim_start_head (rev (trim_start s))) as [E|(c & s' & E & Hc)].
  - by rewrite E in Hne.
  - rewrite E. simpl. by rewrite Hc.
Qed.

Lemma truthy_spec s : truthy s = true ↔ s ≠ [].
Proof. by destruct s. Qed.

End MessageInputFacts.

(** C10. One submission of the form always prevents the default action; it
    calls [onSendMessage] exactly when the entered text is not empty after
    trimming, that is when it holds some character that is not white space;
    the call is made once, with the trimmed text, and the input is then
    reset to the empty string, while a blank input is left as it is.  So
    what the client sends as [chat_message] is never empty nor made of
    white space only. *)
Theorem handleSubmit_sends_trimmed_text (text : list N) (connected : bool) :
  let r := MessageInput.handleSubmit text in
  MessageInput.default_prevented r = true ∧
  (MessageInput.sent r ≠ [] ↔ MessageInput.trim text ≠ []) ∧
  (MessageInput.trim text = []
     ↔ forallb MessageInput.is_white_space text = true) ∧
  (MessageInput.trim text ≠ [] →
     MessageInput.sent r = [MessageInput.trim text] ∧
     MessageInput.text_after r = []) ∧
  (MessageInput.trim text = [] →
     MessageInput.sent r = [] ∧ MessageInput.text_after r = text) ∧
  (∀ m, m ∈ MessageInput.submit_emits connected text →
     m.1 = "chat_message" ∧ m.2 = MessageInput.trim text ∧ m.2 ≠ [] ∧
     forallb MessageInput.is_white_space m.2 = false).
Proof.
  intros r. subst r. unfold MessageInput.submit_emits, MessageInput.handleSubmit.
  pose proof (MessageInputFacts.truthy_spec (MessageInput.trim text)) as Ht.
  pose proof (MessageInputFacts.trim_not_blank text) as Hb.
  destruct (MessageInput.truthy (MessageInput.trim text)) eqn:E; simpl.
  - assert (MessageInput.trim text ≠ []) as Hne by (by apply Ht).
    split; [done|]. split; [done|].
    split; [apply MessageInputFacts.trim_nil|].
    split; [done|]. split; [done|].
    intros m. unfold MessageInput.handleSendMessage, MessageInput.sendMessage.
    destruct connected; simpl; rewrite ?elem_of_cons, ?elem_of_nil;
      [|done]. intros [->|[]]. simpl. auto.
  - assert (MessageInput.trim text = []) as Hnil.
    { destruct (MessageInput.trim text); [done|]. by destruct Ht as [_ Ht]. }
    split; [done|]. split; [by rewrite Hnil|].
    split; [apply MessageInputFacts.trim_nil|].
    split; [done|]. split; [done|].
    intros m Hm. by apply elem_of_nil in Hm.
Qed.

Lemma handleSubmit_sends_trimmed_text_witness :
  MessageInput.trim [32; 104; 105; 10]%N = [104; 105]%N ∧
  MessageInput.sent (MessageInput.handleSubmit [32; 104; 105; 10]%N)
    = [[104; 105]%N] ∧
  MessageInput.text_after (MessageInput.handleSubmit [32; 104; 105; 10]%N) = [].
Proof.
  split; [reflexivity|].
  refine (proj1 (proj2 (proj2 (proj2
    (handleSubmit_sends_trimmed_text [32; 104; 105; 10]%N true)))) _).
  vm_compute. discriminate.
Defined.

(** ** Concrete runs of the gateway *)

Lemma A_open : "A" ∈ two_open.
Proof. unfold two_open. set_solver. Qed.

Lemma connect_greets_new_connection_only_witness :
  named "server_registered_sid"
    (received two_open "A" (effects_of (connect env0 "A" VNone) w0))
  = [("server_registered_sid", dict_of [("sid", VStr "A")], to_room "A")].
Proof.
  refine (proj1 (proj2 (proj2 (proj2
    (connect_greets_new_connection_only env0 "A" VNone w0 two_open)))
    A_open _)).
  reflexivity.
Defined.

Lemma connect_emits_status_message_witness :
  named "message"
    (received two_open "A" (effects_of (connect env0 "A" VNone) w0))
  = [("message",
      dict_of [("type", VStr "status"); ("data", VStr "Welcome A!")],
      to_room "A")].
Proof.
  refine (proj1
    (connect_emits_status_message env0 "A" VNone w0 two_open A_open _)).
  reflexivity.
Defined.

Lemma unrecognized_event_is_only_logged_witness :
  emitted (effects_of (dispatch env0 "typing" "A" VNone) w0) = [].
Proof.
  refine (proj1 (proj2
    (unrecognized_event_is_only_logged env0 "typing" "A" VNone w0 _))).
  unfold recognized. rewrite !not_elem_of_cons. repeat split; try done.
  apply not_elem_of_nil.
Defined.

(** C4, as stated, fails: the departure notice of a disconnect is a status
    [message], and no emit of the run carries an [is_ai] flag. *)
Lemma disconnect_notice_is_not_chat_message :
  ¬ announces_with_chat_message env0 "A" (World [("A", 0%N); ("B", 0%N)] []).
Proof.
  unfold announces_with_chat_message. intros (m & Hin & Hai).
  assert (emitted (effects_of (disconnect env0 "A")
            (World [("A", 0%N); ("B", 0%N)] []))
          = [("message", status_message "User A has left.", to_all_but "A")])
    as Hem by reflexivity.
  rewrite Hem in Hin. apply list_elem_of_singleton in Hin. subst m.
  discriminate Hai.
Qed.

(** C1, as stated, fails: a payload whose [text] is the empty string passes
    the check of [chat_message] and is broadcast. *)
Lemma chat_message_accepts_empty_text :
  spec_invalid (dict_of [("text", VStr "")]) = true ∧
  ¬ rejects env0 "A" (dict_of [("text", VStr "")]) w0.
Proof.
  split; [reflexivity|]. intros [Hb _].
  assert (broadcasts (effects_of
            (chat_message env0 "A" (dict_of [("text", VStr "")])) w0)
          = [("new_message",
              chat_payload "A" (VStr "") (VStr "1970-01-01T00:00:00Z") false,
              to_all);
             ("new_message",
              wrapped_reply "ai_assistant" "1970-01-01T00:00:00Z" (VStr ""),
              to_all)]) as Hbr by reflexivity.
  rewrite Hbr in Hb. discriminate Hb.
Qed.

Lemma chat_message_rejects_malformed_witness :
  emitted (effects_of (chat_message env0 "A" (dict_of [("msg", VStr "hi")])) w0)
  = [("error",
      dict_of [("type", VStr "validation_error");
               ("message",
                VStr "Invalid message format. Expected {'text': 'your message'}")],
      to_room "A")].
Proof.
  refine (proj2 (proj2 (proj1
    (chat_message_rejects_malformed env0 "A" (dict_of [("msg", VStr "hi")])
       w0 two_open) _)) _); reflexivity.
Defined.



(** C5, as stated, fails: when the response generator raises an exception
    that is not a [SocketIOError], the sender is told of an
    [unexpected_error] and no [server_error] is emitted. *)
Lemma generator_failure_is_not_server_error :
  raised (effects_of
    (chat_message env_generator_fails "A" (dict_of [("text", VStr "hi")])) w0)
  = [OtherException "boom"] ∧
  ¬ reports_server_error env_generator_fails "A"
      (dict_of [("text", VStr "hi")]) w0.
Proof.
  split; [reflexivity|].
  unfold reports_server_error. intros (p & Hin & Hkind).
  assert (emitted (effects_of
            (chat_message env_generator_fails "A"
               (dict_of [("text", VStr "hi")])) w0)
          = [("new_message",
              chat_payload "A" (VStr "hi") (VStr "1970-01-01T00:00:00Z") false,
              to_all);
             ("error",
              error_message "unexpected_error"
                "An unexpected server error occurred.",
              to_room "A")]) as Hem by reflexivity.
  rewrite Hem in Hin.
  apply elem_of_cons in Hin as [Hin|Hin]; [discriminate Hin|].
  apply list_elem_of_singleton in Hin. injection Hin as Hp. subst p.
  discriminate Hkind.
Qed.

Lemma chat_message_failure_is_reported_witness :
  named "error" (emitted (effects_of
    (chat_message env_generator_fails "A" (dict_of [("text", VStr "hi")])) w0))
  = [("error",
      dict_of [("type", VStr "unexpected_error");
               ("message", VStr "An unexpected server error occurred.")],
      to_room "A")].
Proof.
  destruct (chat_message_failure_is_reported env_generator_fails "A"
              (dict_of [("text", VStr "hi")]) w0 (OtherException "boom"))
    as (_ & _ & _ & [[_ Hem]|(e' & Hr & _)]).
  - reflexivity.
  - exact Hem.
  - discriminate Hr.
Defined.



(** ** More on the gateway *)

Section GatewayMore.

Variable env : Env.

(** X1. Whatever the event, its payload and the answers of the transport and
    of the response generator, the handler returns normally: no exception
    leaves the gateway. *)
Theorem dispatch_never_raises
    (event : string) (s : sid) (data : value) (w : world) :
  (run (dispatch env event s data) w).1 = Ret ().
Proof. dispatch_cases event data; done. Qed.

Lemma emitted_name_cases event s data w m :
  m ∈ emitted (effects_of (dispatch env event s data) w) →
  m.1.1 = "server_registered_sid" ∨ m.1.1 = "message" ∨
  m.1.1 = "new_message" ∨ m.1.1 = "error".
Proof.
  dispatch_cases event data;
    rewrite ?elem_of_cons, ?elem_of_nil; intros Hin;
    repeat match goal with
           | H : _ ∨ _ |- _ => destruct H as [H|H]
           end; try done; subst m; simpl; tauto.
Qed.

(** X2. The handlers emit four event names only, [server_registered_sid],
    [message], [new_message] and [error]; in particular the server never
    emits an event named [chat_message]. *)
Theorem emitted_names_closed
    (event : string) (s : sid) (data : value) (w : world)
    (m : string * value * target) :
  m ∈ emitted (effects_of (dispatch env event s data) w) →
  m.1.1 ∈ emitted_names ∧ m.1.1 ≠ "chat_message".
Proof.
  intros Hin. apply emitted_name_cases in Hin.
  destruct Hin as [H|[H|[H|H]]]; rewrite H;
    (split; [unfold emitted_names; in_list | discriminate]).
Qed.

Lemma not_reached_by_room conns s c :
  c ≠ s → c ∉ recipients conns (to_room s).
Proof.
  intros Hne Hin. apply elem_of_filter in Hin as [[Hroom _] _].
  simpl in Hroom. congruence.
Qed.

(** X3. What a handler run for connection [s] sends to any other connection
    is either a [new_message] broadcast by [chat_message] or the [message]
    notice of [disconnect]: acknowledgments, welcomes and [error] events
    never reach a connection other than the one they concern. *)
Theorem other_connections_get_broadcasts_only
    (event : string) (s c : sid) (data : value) (w : world)
    (conns : gset sid) (m : string * value * target) :
  c ≠ s →
  m ∈ received conns c (effects_of (dispatch env event s data) w) →
  (event = "chat_message" ∧ m.1.1 = "new_message" ∧ m.2 = to_all) ∨
  (event = "disconnect" ∧ m.1.1 = "message" ∧ m.2 = to_all_but s).
Proof.
  intros Hne [Hrec Hin]%list_elem_of_filter. revert Hin Hrec.
  dispatch_cases event data;
    rewrite ?elem_of_cons, ?elem_of_nil; intros Hin;
    repeat match goal with
           | H : _ ∨ _ |- _ => destruct H as [H|H]
           end; try done; subst m; simpl; intros Hrec;
    try (by apply not_reached_by_room in Hrec);
    repeat match goal with
           | H : String.eqb _ _ = true |- _ => apply String.eqb_eq in H
           end; subst; auto.
Qed.

(** X4. A handler run for connection [s] leaves the registry entry of every
    other connection as it was, and only [connect] and [disconnect] change
    the registry at all. *)
Theorem dispatch_registry_frame
    (event : string) (s : sid) (data : value) (w : world) :
  let w' := (run (dispatch env event s data) w).2 in
  (∀ c, c ≠ s →
     Registry.lookup c (connections w') = Registry.lookup c (connections w)) ∧
  (event ≠ "connect" → event ≠ "disconnect" →
     connections w' = connections w).
Proof.
  split.
  - intros c Hne. dispatch_cases event data;
      rewrite ?RegistryFacts.lookup_register_ne,
              ?RegistryFacts.lookup_deregister_ne by done; done.
  - intros H1 H2. apply String.eqb_neq in H1, H2.
    unfold run, dispatch. rewrite H1, H2.
    repeat match goal with
           | |- context [String.eqb event ?n] => destruct (String.eqb event n)
           end; unfold_run; try destruct (invalid_format data);
      handler_cases; done.
Qed.

(** X5. When an emit of [connect] raises, the greetings that come after it
    are not sent, the failure is logged with its traceback, and the new
    connection is sent one [error] event whose payload is
    [{message: "Connection error occurred."}], without a [type]; if that
    emit raises too, the second failure is logged and nothing more is
    sent. *)
Theorem connect_failure_is_reported
    (s : sid) (environ : value) (w : world) (e : exn) :
  let out := effects_of (connect env s environ) w in
  let greetings := ["server_registered_sid"; "message"; "new_message"] in
  let report :=
    ("error", dict_of [("message", VStr "Connection error occurred.")],
     to_room s) in
  head (raised out) = Some e →
  field "type" report.1.2 = None ∧
  (ERROR, [Lit "Error during connect for SID "; FStr s; Lit ": "; FExn e],
   true) ∈ logged out ∧
  ∃ k, k < 3 ∧
    ((raised out = [e] ∧
      map (λ m, m.1.1) (emitted out) = take k greetings ++ ["error"] ∧
      last (emitted out) = Some report) ∨
     (∃ e', raised out = [e; e'] ∧
        map (λ m, m.1.1) (emitted out) = take k greetings ∧
        (ERROR, [Lit "Failed to emit connection error to SID "; FStr s;
                 Lit ": "; FExn e'], true) ∈ logged out)).
Proof.
  intros out greetings report. subst out greetings report.
  unfold_run. repeat oracle; new_effects; try discriminate; intros [= <-].
  all: split; [reflexivity|]; split; [in_list|].
  1,2: exists 0. 3,4: exists 1. 5,6: exists 2.
  all: split; [lia|].
  all: first [ left; by repeat split
             | right; eexists; repeat split; in_list ].
Qed.

(** X6. [chat_message] calls the response generator at most once, and only
    for a payload that passed the format check and after the user's message
    was broadcast; the generator is given the payload's [text] untouched and
    the sender's id. *)
Theorem generator_called_after_user_broadcast
    (s : sid) (data : value) (w : world) (call : value * sid) :
  let out := effects_of (chat_message env s data) w in
  call ∈ generator_calls out →
  generator_calls out = [(dict_get "text" data, s)] ∧
  invalid_format data = false ∧
  ∃ ts, head (emitted out)
        = Some ("new_message",
                chat_payload s (dict_get "text" data) (VStr (ts +:+ "Z")) false,
                to_all).
Proof.
  intros out. subst out.
  unfold_run. destruct (invalid_format data) eqn:Hinv;
    handler_cases; new_effects;
    rewrite ?elem_of_cons, ?elem_of_nil; intros Hin;
    repeat match goal with
           | H : _ ∨ _ |- _ => destruct H as [H|H]
           end; try done; eauto.
Qed.

(** X7. One [chat_message] makes the server emit at most two events, at
    most one of them an [error]; and the sender is sent an [error] only in
    a run that did not broadcast the AI reply: in such a run, whatever the
    generator returned was handed to an emit that raised, and every
    broadcast of the run is the user's message as the handler built it. *)
Theorem chat_message_emits_at_most_two
    (s : sid) (data : value) (w : world) :
  let out := effects_of (chat_message env s data) w in
  length (emitted out) ≤ 2 ∧
  length (named "error" (emitted out)) ≤ 1 ∧
  (named "error" (emitted out) ≠ [] →
     (∀ text s' reply,
        Generated text s' (inr reply) ∈ out →
        ∃ e, EmitRaised "new_message" reply to_all e ∈ out) ∧
     (∀ m, m ∈ broadcasts out →
        ∃ ts, m = ("new_message",
                   chat_payload s (dict_get "text" data) (VStr (ts +:+ "Z"))
                     false,
                   to_all))).
Proof.
  intros out. subst out.
  unfold_run. destruct (invalid_format data) eqn:Hinv;
    handler_cases; new_effects.
  all: split; [simpl; lia|].
  all: split; [named_simpl; simpl; lia|].
  all: intros Hne.
  all: try (exfalso; apply Hne; by named_simpl).
  all: split;
    [ intros text s' reply; rewrite ?elem_of_cons, ?elem_of_nil;
      intros Hin;
      repeat match goal with
             | H : _ ∨ _ |- _ => destruct H as [H|H]
             end; try done; simplify_eq; eexists; in_list_bt
    | intros m [Hb Hin]%list_elem_of_filter; simpl in Hin; revert Hin Hb;
      rewrite ?elem_of_cons, ?elem_of_nil; intros Hin Hb;
      repeat match goal with
             | H : _ ∨ _ |- _ => destruct H as [H|H]
             end; try done; subst m; simpl in Hb; try done; eauto ].
Qed.

(** X8. With the threshold [logging.basicConfig] sets, every record the
    handlers of [connect], [disconnect], [chat_message] and [error] issue
    is enabled, and the record the catch-all issues is not: an event
    without a handler of its own leaves no line in the log. *)
Theorem log_records_enabled_iff_recognized
    (event : string) (s : sid) (data : value) (w : world)
    (r : level * list frag * bool) :
  r ∈ logged (effects_of (dispatch env event s data) w) →
  (is_enabled_for r.1.1 = true ↔ event ∈ recognized).
Proof.
  assert (∀ b, String.eqb event b = true → event = b) as Heq
    by (intros b; apply String.eqb_eq).
  assert (∀ b, String.eqb event b = false → event ≠ b) as Hneq
    by (intros b; apply String.eqb_neq).
  dispatch_cases event data;
    rewrite ?elem_of_cons, ?elem_of_nil; intros Hin;
    repeat match goal with
           | H : _ ∨ _ |- _ => destruct H as [H|H]
           end; try done; subst r; simpl;
    repeat match goal with
           | H : String.eqb _ _ = true |- _ => apply Heq in H
           | H : String.eqb _ _ = false |- _ => apply Hneq in H
           end;
    unfold recognized;
    (split; [intros Hen; try discriminate Hen; subst; in_list
            | intros Hrec; try reflexivity;
              rewrite !elem_of_cons, elem_of_nil in Hrec; naive_solver]).
Qed.

(** X9. No failure is swallowed in silence: every exception the transport
    or the response generator raises during a handler run is logged at
    error level, with its traceback, in a record that names it. *)
Theorem every_failure_is_logged
    (event : string) (s : sid) (data : value) (w : world) (e : exn) :
  let out := effects_of (dispatch env event s data) w in
  e ∈ raised out →
  ∃ msg, (ERROR, msg, true) ∈ logged out ∧ FExn e ∈ msg.
Proof.
  intros out. subst out.
  dispatch_cases event data;
    rewrite ?elem_of_cons, ?elem_of_nil; intros Hin;
    repeat match goal with
           | H : _ ∨ _ |- _ => destruct H as [H|H]
           end; try done; subst e;
    solve [eexists; split; [in_list_bt | in_list]].
Qed.

End GatewayMore.

(** ** The page *)

Module PageFacts.
Import Page.

Lemma mark_sent_fields m :
  id (mark_sent m) = id m ∧ text (mark_sent m) = text m ∧
  sender (mark_sent m) = sender m ∧ msg_status (mark_sent m) ≠ Some sending.
Proof. destruct m as [i t f [[]|]]; done. Qed.

Lemma mark_sent_hides m : shows_sending (mark_sent m) = false.
Proof.
  unfold shows_sending. destruct m as [i t f [[]|]]; simpl;
    by rewrite ?andb_false_r.
Qed.

Lemma received_shape now msg st :
  ∃ new,
    messages (handleMessageReceived now msg st).2
      = map mark_sent (messages st) ++ new ∧
    (new = [] ∨ ∃ t from, new = [ai_message now t from]).
Proof.
  unfold handleMessageReceived.
  destruct (get_prop "event" msg), (get_prop "data" msg);
    repeat match goal with
           | |- context [if ?b then _ else _] => destruct b
           | |- context [match get_prop ?k ?v with _ => _ end] =>
               destruct (get_prop k v)
           end; simpl;
    first [ exists []; rewrite app_nil_r; by auto
          | eexists [_]; split; [reflexivity|]; right; eauto ].
Qed.

Lemma received_flags now msg st :
  isAiResponding (handleMessageReceived now msg st).2 = false ∧
  isAiTyping (handleMessageReceived now msg st).2 = false.
Proof.
  unfold handleMessageReceived.
  destruct (get_prop "event" msg), (get_prop "data" msg);
    repeat match goal with
           | |- context [if ?b then _ else _] => destruct b
           | |- context [match get_prop ?k ?v with _ => _ end] =>
               destruct (get_prop k v)
           end; done.
Qed.

Lemma received_completes now msg st :
  (handleMessageReceived now msg st).1 = false ↔ msg = JUndefined ∨ msg = JNull.
Proof.
  unfold handleMessageReceived. destruct msg; simpl;
    repeat match goal with
           | |- context [if ?b then _ else _] => destruct b
           end; simpl; naive_solver.
Qed.

Lemma onAny_props event args :
  get_prop "event" (onAny event args) = Some (JString event) ∧
  get_prop "data" (onAny event args)
    = Some (if decide (1 < length args) then JArray args
            else default JUndefined (head args)) ∧
  get_prop "text" (onAny event args) = Some JUndefined ∧
  get_prop "sender" (onAny event args) = Some JUndefined.
Proof.
  unfold onAny.
  generalize (if decide (1 < length args) then JArray args
              else default JUndefined (head args)).
  intros data. repeat split; reflexivity.
Qed.

End PageFacts.

(** X10. Whatever [handleMessageReceived] is given, afterwards the page no
    longer waits for the AI (the input is enabled again and the typing
    indicator is off), every earlier message is still there, in order and
    with its id, text and sender, none is left in status [sending] so that
    no bubble shows ["Sending..."], and at most one message was appended.
    The handler runs to its end unless it is given [undefined] or [null],
    and even then the state is settled as said. *)
Theorem received_message_settles_page
    (now : N) (msg : Page.jsvalue) (st : Page.page) :
  let r := Page.handleMessageReceived now msg st in
  Page.input_disabled r.2 = false ∧
  Page.isAiTyping r.2 = false ∧
  (r.1 = false ↔ msg = Page.JUndefined ∨ msg = Page.JNull) ∧
  (∃ new, Page.messages r.2 = map Page.mark_sent (Page.messages st) ++ new
          ∧ length new ≤ 1) ∧
  (∀ i m, Page.messages st !! i = Some m →
     ∃ m', Page.messages r.2 !! i = Some m' ∧
           Page.id m' = Page.id m ∧ Page.text m' = Page.text m ∧
           Page.sender m' = Page.sender m) ∧
  (∀ m, m ∈ Page.messages r.2 →
     Page.msg_status m ≠ Some Page.sending ∧ Page.shows_sending m = false).
Proof.
  intros r. subst r.
  destruct (PageFacts.received_flags now msg st) as [Hr Ht].
  destruct (PageFacts.received_shape now msg st) as (new & Hm & Hnew).
  split; [exact Hr|]. split; [exact Ht|].
  split; [apply PageFacts.received_completes|].
  split.
  { exists new. split; [done|]. destruct Hnew as [->|(t & f & ->)]; simpl; lia. }
  split.
  - intros i m Hi. exists (Page.mark_sent m). rewrite Hm.
    split; [|by destruct (PageFacts.mark_sent_fields m) as (? & ? & ? & _)].
    apply lookup_app_l_Some. by rewrite list_lookup_fmap, Hi.
  - intros m. rewrite Hm. intros [Hin|Hin]%elem_of_app.
    + apply list_elem_of_fmap in Hin as (m0 & -> & _).
      split; [apply PageFacts.mark_sent_fields|apply PageFacts.mark_sent_hides].
    + destruct Hnew as [->|(t & f & ->)]; [by apply elem_of_nil in Hin|].
      apply list_elem_of_singleton in Hin. subst m.
      split; [done|]. unfold Page.shows_sending. simpl.
      by rewrite andb_false_r.
Qed.

(** X11. For what [useWebSocket] passes on from [socket.onAny], the handler
    always runs to its end, and it appends a message exactly when the event
    is named [chat_message] and its data and the data's [text] are truthy;
    the message then carries that text and the sender ['ai'].  The branches
    for a plain string and for an object with [text] and [sender] never
    apply to such a value. *)
Theorem wrapped_event_appends_iff
    (event : list N) (args : list Page.jsvalue) (now : N) (st : Page.page) :
  let data := if decide (1 < length args) then Page.JArray args
              else default Page.JUndefined (head args) in
  let t := default Page.JUndefined (Page.get_prop "text" data) in
  let r := Page.handleMessageReceived now (Page.onAny event args) st in
  r.1 = true ∧
  Page.messages r.2
    = map Page.mark_sent (Page.messages st) ++
      (if bool_decide (event = Page.js "chat_message")
          && Page.truthy data && Page.truthy t
       then [Page.ai_message now t (Page.JString (Page.js "ai"))]
       else []).
Proof.
  intros data t r. subst r t data.
  destruct (PageFacts.onAny_props event args) as (He & Hd & Ht & Hs).
  unfold Page.handleMessageReceived. rewrite He, Hd, Ht, Hs. simpl.
  set (data := if decide (1 < length args) then _ else _).
  destruct (bool_decide (event = Page.js "chat_message")
            && Page.truthy data
            && Page.truthy (default Page.JUndefined (Page.get_prop "text" data)));
    simpl; [done|]. by rewrite app_nil_r.
Qed.

Lemma emitted_names_not_chat_message (name : string) :
  name = "server_registered_sid" ∨ name = "message" ∨
  name = "new_message" ∨ name = "error" →
  bool_decide (Page.js name = Page.js "chat_message") = false.
Proof. intros [-> | [-> | [-> | ->]]]; reflexivity. Qed.

(** X12. No event the gateway emits is ever displayed: whatever handler
    emitted it and whatever its arguments, passing it through
    [useWebSocket] to [handleMessageReceived] appends nothing to the list
    of messages, because the page looks for the event name [chat_message]
    and the server emits none. *)
Theorem server_events_are_never_displayed
    (env : Env) (event : string) (s : sid) (data : value) (w : world)
    (m : string * value * target)
    (args : list Page.jsvalue) (now : N) (st : Page.page) :
  m ∈ emitted (effects_of (dispatch env event s data) w) →
  Page.messages
    (Page.handleMessageReceived now (Page.onAny (Page.js m.1.1) args) st).2
  = map Page.mark_sent (Page.messages st).
Proof.
  intros Hin. apply emitted_name_cases in Hin.
  apply emitted_names_not_chat_message in Hin.
  destruct (PageFacts.onAny_props (Page.js m.1.1) args) as (He & Hd & Ht & Hs).
  unfold Page.handleMessageReceived. rewrite He, Hd, Ht, Hs. simpl.
  by rewrite Hin.
Qed.

(** X13. A message the user sends is appended with status [sending] and
    locks the input, whether or not the socket is connected (nothing is
    emitted when it is not); whatever is received next unlocks the input
    and turns that message to [sent], keeping its id, text and sender. *)
Theorem sent_message_is_marked_sent_by_any_receipt
    (now1 now2 : N) (connected : bool) (t : list N) (msg : Page.jsvalue)
    (st : Page.page) :
  let sent1 := Page.handleSendMessage now1 connected t st in
  let st2 := (Page.handleMessageReceived now2 msg sent1.1).2 in
  let mine status :=
    Page.Message (Page.now_string now1) (Page.JString t)
      (Page.JString (Page.js "user")) (Some status) in
  Page.messages sent1.1 = Page.messages st ++ [mine Page.sending] ∧
  Page.shows_sending (mine Page.sending) = true ∧
  Page.input_disabled sent1.1 = true ∧
  sent1.2 = (if connected
             then [("chat_message",
                    Page.JObject (list_to_map [("text", Page.JString t)]))]
             else []) ∧
  Page.messages st2 !! length (Page.messages st) = Some (mine Page.sent) ∧
  Page.input_disabled st2 = false.
Proof.
  intros sent1 st2 mine. subst sent1 st2 mine.
  split; [done|]. split; [done|]. split; [done|].
  split; [by destruct connected|].
  split; [|apply PageFacts.received_flags].
  destruct (PageFacts.received_shape now2 msg
              (Page.handleSendMessage now1 connected t st).1)
    as (new & -> & _).
  simpl. rewrite map_app. simpl.
  rewrite <- app_assoc. rewrite lookup_app_r by (by rewrite length_map).
  by rewrite length_map, Nat.sub_diag.
Qed.

Lemma now_string_digits (now : N) :
  Forall (λ c, (48 ≤ c ≤ 57)%N) (Page.now_string now).
Proof.
  unfold Page.now_string, Page.js. generalize (N.to_uint now). intros d.
  induction d; simpl; constructor; try assumption; vm_compute;
    split; discriminate.
Qed.

(** X14. The id of a message the user sends is made of decimal digits only,
    and the id of a message appended on receipt ends in ["-ai"]: a sent and
    a received message never share their id, whatever the two instants. *)
Theorem sent_and_received_ids_differ
    (now1 now2 : N) (connected : bool) (t : list N) (st st' : Page.page)
    (msg : Page.jsvalue) (mine theirs : Page.message) :
  last (Page.messages (Page.handleSendMessage now1 connected t st).1)
    = Some mine →
  Page.messages (Page.handleMessageReceived now2 msg st').2
    = map Page.mark_sent (Page.messages st') ++ [theirs] →
  Forall (λ c, (48 ≤ c ≤ 57)%N) (Page.id mine) ∧
  Page.id theirs = Page.now_string now2 ++ Page.js "-ai" ∧
  Page.id mine ≠ Page.id theirs.
Proof.
  simpl. rewrite last_snoc. intros [= <-]. simpl.
  destruct (PageFacts.received_shape now2 msg st') as (new & -> & Hnew).
  intros Heq%app_inv_head.
  destruct Hnew as [->|(t' & from & ->)]; [discriminate|].
  injection Heq as <-. simpl.
  split; [apply now_string_digits|]. split; [done|].
  intros Hid. pose proof (now_string_digits now1) as Hd.
  rewrite Hid in Hd. apply Forall_app in Hd as [_ Hd].
  apply Forall_cons in Hd as [Hd _]. vm_compute in Hd.
  destruct Hd as [Hd _]. by apply Hd.
Qed.

Lemma sent_and_received_ids_differ_witness :
  Page.id (Page.Message (Page.js "1700") (Page.JString (Page.js "hi"))
             (Page.JString (Page.js "user")) (Some Page.sending))
  ≠ Page.id (Page.ai_message 1700 (Page.JString (Page.js "yo"))
               (Page.JString (Page.js "ai"))).
Proof.
  refine (proj2 (proj2
    (sent_and_received_ids_differ 1700 1700 true (Page.js "hi")
       (Page.PageState [] false false) (Page.PageState [] false false)
       (Page.JString (Page.js "yo")) _ _ _ _))); reflexivity.
Defined.

Module MessageInputMore.
Import MessageInput.

Lemma trim_start_split s :
  ∃ pre, s = pre ++ trim_start s ∧ forallb is_white_space pre = true.
Proof.
  induction s as [|c s (pre & Hs & Hpre)]; simpl; [by exists []|].
  destruct (is_white_space c) eqn:E.
  - exists (c :: pre). simpl. rewrite E, Hpre. split; [by f_equal|done].
  - by exists [].
Qed.

Lemma trim_end_split s :
  ∃ post, s = trim_end s ++ post ∧ forallb is_white_space post = true.
Proof.
  unfold trim_end. destruct (trim_start_split (rev s)) as (pre & Hs & Hpre).
  exists (rev pre). split.
  - rewrite <- rev_app_distr, <- Hs. by rewrite rev_involutive.
  - by rewrite MessageInputFacts.forallb_rev.
Qed.

Lemma trim_split s :
  ∃ pre post, s = pre ++ trim s ++ post ∧
    forallb is_white_space pre = true ∧ forallb is_white_space post = true.
Proof.
  destruct (trim_start_split s) as (pre & Hs & Hpre).
  destruct (trim_end_split (trim_start s)) as (post & Hu & Hpost).
  exists pre, post. unfold trim. by rewrite <- Hu.
Qed.

Lemma trim_ends s c :
  head (trim s) = Some c ∨ last (trim s) = Some c → is_white_space c = false.
Proof.
  intros [Hh|Hl].
  - destruct (MessageInputFacts.trim_start_head s) as [E|(c0 & s' & E & Hc)].
    + unfold trim in Hh. rewrite E in Hh. discriminate.
    + destruct (trim_end_split (trim_start s)) as (post & Hu & Hpost).
      fold (trim s) in Hu. rewrite E in Hu.
      destruct (trim s) as [|c1 u]; [discriminate|].
      simpl in Hh, Hu. congruence.
  - unfold trim, trim_end in Hl.
    destruct (MessageInputFacts.trim_start_head (rev (trim_start s)))
      as [E|(c0 & s' & E & Hc)]; rewrite E in Hl; [discriminate|].
    simpl in Hl. rewrite last_snoc in Hl. congruence.
Qed.

End MessageInputMore.

(** X15. Submitting the form a second time without typing sends nothing:
    after a submission that sent, the input is empty, and after one that
    did not, it is still blank. *)
Theorem second_submit_sends_nothing (text : list N) :
  MessageInput.sent
    (MessageInput.handleSubmit
       (MessageInput.text_after (MessageInput.handleSubmit text))) = [].
Proof.
  unfold MessageInput.handleSubmit.
  destruct (MessageInput.truthy (MessageInput.trim text)) eqn:E; simpl.
  - reflexivity.
  - by rewrite E.
Qed.

(** X16. What a submission hands to [onSendMessage] is the entered text
    with white space removed at both ends and nothing else changed: the
    entered text is that string between two runs of white space, and the
    string neither begins nor ends with white space. *)
Theorem sent_text_is_entered_text_stripped (text x : list N) :
  x ∈ MessageInput.sent (MessageInput.handleSubmit text) →
  (∃ pre post,
     text = pre ++ x ++ post ∧
     forallb MessageInput.is_white_space pre = true ∧
     forallb MessageInput.is_white_space post = true) ∧
  (∃ first, head x = Some first ∧ MessageInput.is_white_space first = false) ∧
  (∃ final, last x = Some final ∧ MessageInput.is_white_space final = false).
Proof.
  unfold MessageInput.handleSubmit.
  destruct (MessageInput.truthy (MessageInput.trim text)) eqn:E; simpl;
    [|by intros ?%elem_of_nil].
  intros ->%list_elem_of_singleton.
  split; [apply MessageInputMore.trim_split|].
  pose proof (MessageInputMore.trim_ends text) as Hends.
  destruct (MessageInput.trim text) as [|c u] eqn:Ht; [discriminate|].
  split.
  - exists c. split; [done|]. apply Hends. by left.
  - destruct (last (c :: u)) as [z|] eqn:Hl.
    + exists z. split; [done|]. apply Hends. by right.
    + by apply last_None in Hl.
Qed.

Lemma sent_text_is_entered_text_stripped_witness :
  ∃ pre post,
    [32; 104; 32; 105; 10]%N = pre ++ [104; 32; 105]%N ++ post ∧
    forallb MessageInput.is_white_space pre = true ∧
    forallb MessageInput.is_white_space post = true.
Proof.
  refine (proj1
    (sent_text_is_entered_text_stripped
       [32; 104; 32; 105; 10]%N [104; 32; 105]%N _)).
  vm_compute. apply list_elem_of_here.
Defined.

(** ** More concrete runs *)

Lemma B_is_not_A : ("B" : string) ≠ "A".
Proof. discriminate. Qed.

Lemma emitted_names_closed_witness :
  "new_message" ∈ emitted_names ∧ "new_message" ≠ "chat_message".
Proof.
  refine (emitted_names_closed env0 "chat_message" "A"
            (dict_of [("text", VStr "hi")]) w0
            ("new_message",
             chat_payload "A" (VStr "hi") (VStr "1970-01-01T00:00:00Z") false,
             to_all) _).
  apply list_elem_of_here.
Defined.

Lemma other_connections_get_broadcasts_only_witness :
  ("disconnect" = "chat_message" ∧ "message" = "new_message"
   ∧ to_all_but "A" = to_all) ∨
  ("disconnect" = "disconnect" ∧ "message" = "message"
   ∧ to_all_but "A" = to_all_but "A").
Proof.
  refine (other_connections_get_broadcasts_only env0 "disconnect" "A" "B"
            VNone w0 two_open
            ("message", status_message "User A has left.", to_all_but "A")
            B_is_not_A _).
  vm_compute. apply list_elem_of_here.
Defined.

Lemma dispatch_registry_frame_witness :
  Registry.lookup "B"
    (connections (run (dispatch env0 "disconnect" "A" VNone)
                    (World [("A", 1%N); ("B", 2%N)] [])).2)
  = Some 2%N.
Proof.
  refine (proj1 (dispatch_registry_frame env0 "disconnect" "A" VNone
                   (World [("A", 1%N); ("B", 2%N)] [])) "B" B_is_not_A).
Defined.

Lemma connect_failure_is_reported_witness :
  (ERROR, [Lit "Error during connect for SID "; FStr "A"; Lit ": ";
           FExn (SocketIOError "closed")], true)
  ∈ logged (effects_of (connect env_new_message_fails "A" VNone) w0).
Proof.
  refine (proj1 (proj2
    (connect_failure_is_reported env_new_message_fails "A" VNone w0
       (SocketIOError "closed") _))).
  reflexivity.
Defined.

Lemma generator_called_after_user_broadcast_witness :
  generator_calls
    (effects_of (chat_message env0 "A" (dict_of [("text", VStr "hi")])) w0)
  = [(VStr "hi", "A")].
Proof.
  refine (proj1
    (generator_called_after_user_broadcast env0 "A"
       (dict_of [("text", VStr "hi")]) w0 (VStr "hi", "A") _)).
  apply list_elem_of_here.
Defined.

Lemma log_records_enabled_iff_recognized_witness :
  is_enabled_for DEBUG = true ↔ "typing" ∈ recognized.
Proof.
  refine (log_records_enabled_iff_recognized env0 "typing" "A" VNone w0
            (DEBUG,
             [Lit "Unhandled event '"; FStr "typing"; Lit "' from SID ";
              FStr "A"; Lit "' with data: "; FVal VNone], false) _).
  apply list_elem_of_here.
Defined.

Lemma every_failure_is_logged_witness :
  ∃ msg,
    (ERROR, msg, true)
    ∈ logged (effects_of
        (dispatch env_generator_fails "chat_message" "A"
           (dict_of [("text", VStr "hi")])) w0)
    ∧ FExn (OtherException "boom") ∈ msg.
Proof.
  refine (every_failure_is_logged env_generator_fails "chat_message" "A"
            (dict_of [("text", VStr "hi")]) w0 (OtherException "boom") _).
  apply list_elem_of_here.
Defined.

Lemma server_events_are_never_displayed_witness :
  Page.messages
    (Page.handleMessageReceived 5
       (Page.onAny (Page.js "new_message")
          [Page.JObject (list_to_map [("text", Page.JString (Page.js "hi"))])])
       (Page.PageState [] true true)).2
  = [].
Proof.
  refine (server_events_are_never_displayed env0 "chat_message" "A"
            (dict_of [("text", VStr "hi")]) w0
            ("new_message",
             chat_payload "A" (VStr "hi") (VStr "1970-01-01T00:00:00Z") false,
             to_all)
            [Page.JObject (list_to_map [("text", Page.JString (Page.js "hi"))])]
            5 (Page.PageState [] true true) _).
  apply list_elem_of_here.
Defined.

(** X17. After a send, the status effect enables the input again exactly
    when the connection status has changed to [disconnected] or [error];
    when the status is the same as at the commit before, as after a send
    made while already disconnected, the input stays disabled.  The effect
    never touches the list of messages, so the message sent keeps its
    status [sending] until something is received. *)
Theorem lost_connection_unlocks_input
    (now : N) (connected : bool) (t : list N) (st : Page.page)
    (prev : option Page.ws_status) (s : Page.ws_status) :
  let st1 := (Page.handleSendMessage now connected t st).1 in
  let st2 := Page.statusEffect prev s st1 in
  Page.messages st2 = Page.messages st1 ∧
  (Page.input_disabled st2 = false
     ↔ prev ≠ Some s ∧ (s = Page.disconnected ∨ s = Page.error)) ∧
  Page.input_disabled (Page.statusEffect (Some s) s st1) = true ∧
  ∃ mine, last (Page.messages st2) = Some mine
          ∧ Page.shows_sending mine = true.
Proof.
  intros st1 st2. subst st2 st1. unfold Page.statusEffect.
  split; [by destruct (decide (prev = Some s)), s|]. split.
  - destruct (decide (prev = Some s)), s; simpl; naive_solver.
  - split; [by rewrite decide_True|].
    eexists. split; [|].
    + destruct (decide (prev = Some s)), s; simpl; apply last_snoc.
    + reflexivity.
Qed.
